(** * buildenv: layered variable resolution and emission of shell exports

    A shallow embedding of [buildenv.go]: the two configuration shapes
    ([Config], [ConfigV1]), [GetVaultSecret], and the [app.Action] closure,
    written in a small trace-and-abort monad.  Everything the program
    obtains from outside (file system, YAML decoder, Vault, the order in
    which Go ranges over a map, the Unicode tables of [strconv]) is a field
    of the record [World]. *)

From Stdlib Require Import ZArith Ascii String List Bool Lia.
From stdpp Require Import base option list gmap strings fin_maps.

Local Open Scope string_scope.
Local Open Scope Z_scope.
Local Open Scope list_scope.

(** ** Data model (buildenv.go, lines 75-100) *)

Abbreviation EnvVars := (gmap string string) (only parsing).
Abbreviation Secrets := (gmap string string) (only parsing).

(** The anonymous struct that is the value type of [Dcs] in [Config]. *)
Record Dc := mkDc {
  dc_Vars : EnvVars;
  dc_Secrets : Secrets
}.

(** The anonymous struct that is the value type of [Environments] in [Config]. *)
Record Environment := mkEnvironment {
  env_Vars : EnvVars;
  env_Secrets : Secrets;
  env_Dcs : gmap string Dc
}.

Record Config := mkConfig {
  Vars : EnvVars;
  Secrets_ : Secrets;
  Environments : gmap string Environment
}.

(** The value type of [Environments] in [ConfigV1]: [Dcs] maps a datacenter
    name directly to its variables. *)
Record EnvironmentV1 := mkEnvironmentV1 {
  envV1_Vars : EnvVars;
  envV1_Secrets : Secrets;
  envV1_Dcs : gmap string (gmap string string)
}.

Record ConfigV1 := mkConfigV1 {
  VarsV1 : EnvVars;
  SecretsV1 : Secrets;
  EnvironmentsV1 : gmap string EnvironmentV1
}.

(** Go zero values: indexing a map at an absent key yields them. *)
Definition zeroDc : Dc := mkDc ∅ ∅.
Definition zeroEnvironment : Environment := mkEnvironment ∅ ∅ ∅.
Definition zeroConfig : Config := mkConfig ∅ ∅ ∅.
Definition zeroEnvironmentV1 : EnvironmentV1 := mkEnvironmentV1 ∅ ∅ ∅.
Definition zeroConfigV1 : ConfigV1 := mkConfigV1 ∅ ∅ ∅.

(** [m[k]] on a Go map. *)
Definition index {V} (zero : V) (m : gmap string V) (k : string) : V :=
  default zero (m !! k).

(** Exit codes (lines 20-27; 4 is the literal of line 146). *)
Definition EnvErrorCode : Z := 2.
Definition FileErrorCode : Z := 4.
Definition YamlErrorCode : Z := 5.
Definition VaultErrorCode : Z := 6.

(** ** The Vault record

    [vaultapi.Secret] is used only through [Data["value"]], an
    [interface{}].  A dynamic value is nil, a string, or something else; a
    value of another dynamic type is carried together with the text that
    [fmt] prints for it under the verb [%q]. *)
Inductive iface :=
| INil
| IString (s : string)
| IOther (printed : string).

Record Secret := mkSecret { Data : gmap string iface }.

(** [secret.Data["value"]]: the nil interface when the key is absent. *)
Definition Data_value (s : Secret) : iface := default INil (Data s !! "value").

(** Result of [vault.Logical().Read(path)]: [(secret, err)]. *)
Inductive ReadResult :=
| ReadErr (err : string)
| ReadNil
| ReadOk (secret : Secret).

(** The six [range] loops of [app.Action], in program order. *)
Inductive Loop :=
| GlobalVars | GlobalSecrets | EnvironmentVars | EnvironmentSecrets
| DatacenterVars | DatacenterSecrets.

(** ** The outside world *)
Record World := mkWorld {
  (** outcome of the memory-locking system call: [None] on success *)
  mlockall : option string;
  filepath_Abs : string -> string;
  (** [ioutil.ReadFile]: the bytes, or [None] when it returns an error *)
  ReadFile : string -> option string;
  (** [yaml.Unmarshal(bytes, &config)] on a zero [config]: what is left in
      the target, and the error *)
  Unmarshal_Config : string -> Config * option string;
  Unmarshal_ConfigV1 : string -> ConfigV1 * option string;
  (** [vaultapi.NewClient(nil)]: [Some e] when construction fails *)
  vault_NewClient : option string;
  vault_Read : string -> ReadResult;
  (** the order in which one execution of a [range] loop visits the map *)
  range_order : Loop -> gmap string string -> list (string * string);
  (** [strconv.IsPrint] above U+00FF (table driven in Go) *)
  isPrint_table : Z -> bool
}.

(** Go leaves the order of a [range] over a map unspecified, but every
    entry is visited exactly once. *)
Definition range_ok (w : World) : Prop :=
  forall (l : Loop) (m : gmap string string), range_order w l m ≡ₚ map_to_list m.

(** ** [strconv.Quote], the string case of the verb [%q] *)

Definition byte (c : ascii) : Z := Z.of_N (N_of_ascii c).
Definition chr (b : Z) : ascii := ascii_of_N (Z.to_N b).
Definition str1 (b : Z) : string := String (chr b) EmptyString.

Definition lowerhex (n : Z) : string :=
  match String.get (Z.to_nat n) "0123456789abcdef" with
  | Some c => String c EmptyString
  | None => EmptyString
  end.

(** The backslash and the double quote, as strings. *)
Definition backslash : string :=
  String (Ascii false false true true true false true false) EmptyString.
Definition dquote : string :=
  String (Ascii false true false false false true false false) EmptyString.

Definition RuneError : Z := 65533.
Definition RuneSelf : Z := 128.

Definition in_range (lo hi b : Z) : bool := (lo <=? b) && (b <=? hi).

(** [utf8.DecodeRuneInString] on the bytes at the head of [s]: the rune
    and its width.  The [first] and [acceptRanges] tables are written out
    as ranges of the lead byte. *)
Definition DecodeRuneInString (s : string) : Z * nat :=
  match s with
  | EmptyString => (RuneError, 0%nat)
  | String c0 t0 =>
    let s0 := byte c0 in
    if s0 <? RuneSelf then (s0, 1%nat)
    else if (s0 <? 194) || (244 <? s0) then (RuneError, 1%nat)
    else
      let sz : nat := if s0 <? 224 then 2%nat else if s0 <? 240 then 3%nat else 4%nat in
      let lo := if s0 =? 224 then 160 else if s0 =? 240 then 144 else 128 in
      let hi := if s0 =? 237 then 159 else if s0 =? 244 then 143 else 191 in
      match t0 with
      | EmptyString => (RuneError, 1%nat)
      | String c1 t1 =>
        let s1 := byte c1 in
        if negb (in_range lo hi s1) then (RuneError, 1%nat)
        else if (sz <=? 2)%nat then
          (Z.lor (Z.shiftl (Z.land s0 31) 6) (Z.land s1 63), 2%nat)
        else
          match t1 with
          | EmptyString => (RuneError, 1%nat)
          | String c2 t2 =>
            let s2 := byte c2 in
            if negb (in_range 128 191 s2) then (RuneError, 1%nat)
            else if (sz <=? 3)%nat then
              (Z.lor (Z.lor (Z.shiftl (Z.land s0 15) 12) (Z.shiftl (Z.land s1 63) 6))
                     (Z.land s2 63), 3%nat)
            else
              match t2 with
              | EmptyString => (RuneError, 1%nat)
              | String c3 _ =>
                let s3 := byte c3 in
                if negb (in_range 128 191 s3) then (RuneError, 1%nat)
                else
                  (Z.lor (Z.lor (Z.lor (Z.shiftl (Z.land s0 7) 18)
                                       (Z.shiftl (Z.land s1 63) 12))
                                (Z.shiftl (Z.land s2 63) 6))
                         (Z.land s3 63), 4%nat)
              end
          end
      end
  end.

Definition ValidRune (r : Z) : bool :=
  ((0 <=? r) && (r <? 55296)) || ((57343 <? r) && (r <=? 1114111)).

(** [utf8.AppendRune] *)
Definition AppendRune (r : Z) : string :=
  if r <=? 127 then str1 r
  else if r <=? 2047 then
    str1 (Z.lor 192 (Z.shiftr r 6)) +:+ str1 (Z.lor 128 (Z.land r 63))
  else if negb (ValidRune r) then
    str1 239 +:+ str1 191 +:+ str1 189
  else if r <=? 65535 then
    str1 (Z.lor 224 (Z.shiftr r 12)) +:+ str1 (Z.lor 128 (Z.land (Z.shiftr r 6) 63))
      +:+ str1 (Z.lor 128 (Z.land r 63))
  else
    str1 (Z.lor 240 (Z.shiftr r 18)) +:+ str1 (Z.lor 128 (Z.land (Z.shiftr r 12) 63))
      +:+ str1 (Z.lor 128 (Z.land (Z.shiftr r 6) 63)) +:+ str1 (Z.lor 128 (Z.land r 63)).

(** [strconv.IsPrint]: the Latin-1 fast path is in the code, the rest is
    table lookup. *)
Definition IsPrint (table : Z -> bool) (r : Z) : bool :=
  if r <=? 255 then
    if in_range 32 126 r then true
    else if in_range 161 255 r then negb (r =? 173)
    else false
  else table r.

(** The hexadecimal digits of [r], [n] of them, most significant first. *)
Fixpoint hexdigits (n : nat) (r : Z) : string :=
  match n with
  | O => EmptyString
  | S k => lowerhex (Z.land (Z.shiftr r (4 * Z.of_nat k)) 15) +:+ hexdigits k r
  end.

(** [strconv.appendEscapedRune] with the double quote as quote character,
    [ASCIIonly] and [graphicOnly] false. *)
Definition appendEscapedRune (table : Z -> bool) (r : Z) : string :=
  if (r =? 34) || (r =? 92) then backslash +:+ str1 r
  else if IsPrint table r then AppendRune r
  else if r =? 7 then "\a"
  else if r =? 8 then "\b"
  else if r =? 12 then "\f"
  else if r =? 10 then "\n"
  else if r =? 13 then "\r"
  else if r =? 9 then "\t"
  else if r =? 11 then "\v"
  else if (r <? 32) || (r =? 127) then "\x" +:+ hexdigits 2 r
  else if negb (ValidRune r) then "\u" +:+ hexdigits 4 RuneError
  else if r <? 65536 then "\u" +:+ hexdigits 4 r
  else "\U" +:+ hexdigits 8 r.

(** The loop of [strconv.appendQuotedWith]; [skip] counts the bytes of the
    current rune that are still to be stepped over. *)
Fixpoint appendQuoted (table : Z -> bool) (skip : nat) (s : string) : string :=
  match s with
  | EmptyString => EmptyString
  | String c rest =>
    match skip with
    | S k => appendQuoted table k rest
    | O =>
      let '(r, width) := DecodeRuneInString s in
      if (width =? 1)%nat && (r =? RuneError) then
        "\x" +:+ hexdigits 2 (byte c) +:+ appendQuoted table 0 rest
      else
        appendEscapedRune table r +:+ appendQuoted table (width - 1) rest
    end
  end.

Definition Quote (table : Z -> bool) (s : string) : string :=
  dquote +:+ appendQuoted table 0 s +:+ dquote.

(** [fmt]'s verb [%q] applied to an [interface{}] (lines 181, 197, 221):
    a string is quoted, the nil interface is a bad-verb report. *)
Definition fmt_q (w : World) (v : iface) : string :=
  match v with
  | INil => "%!q(<nil>)"
  | IString s => Quote (isPrint_table w) s
  | IOther printed => printed
  end.

Definition newline : string := String (Ascii false true false true false false false false) EmptyString.

(** ** Effects: an event trace and early exit *)

Inductive Schema := V2 | V1.

Inductive Event :=
| EvMlockall
| EvReadFile (filename : string)
| EvUnmarshal (target : Schema)
| EvGetVaultSecret (path : string) (err : option string)
| EvStdout (s : string)
| EvStderr (s : string).

(** [cli.NewExitError(message, exitCode)] *)
Record ExitError := NewExitError { message : string; exitCode : Z }.

(** A computation has written a trace and then either returned a value or
    left [app.Action] with an [ExitError]. *)
Definition M (A : Type) : Type := list Event * (ExitError + A).

#[export] Instance M_ret : MRet M := fun A a => ([], inr a).
#[export] Instance M_bind : MBind M := fun A B f m =>
  match m with
  | (t, inl e) => (t, inl e)
  | (t, inr a) => (t ++ (f a).1, (f a).2)
  end.

Definition emit (e : Event) : M unit := ([e], inr tt).
Definition exit_with {A} (e : ExitError) : M A := ([], inl e).

Definition Println (s : string) : M unit := emit (EvStdout (s +:+ newline)).
(** [fmt.Printf] with the format already expanded to [s]. *)
Definition Printf (s : string) : M unit := emit (EvStdout s).

(** [for k, v := range m { body }], the map visited in the order [l]. *)
Fixpoint for_range (l : list (string * string)) (body : string -> string -> M unit) : M unit :=
  match l with
  | [] => mret tt
  | (k, v) :: rest => body k v ;; for_range rest body
  end.

(** What a run wrote to standard output, one element per print call. *)
Definition stdout (t : list Event) : list string :=
  omap (fun e => match e with EvStdout s => Some s | _ => None end) t.

(** The process exit status for the value [app.Action] returned. *)
Definition exit_code {A} (r : ExitError + A) : Z :=
  match r with
  | inl e => exitCode e
  | inr _ => 0
  end.

(** ** [GetVaultSecret] (lines 46-65) *)
Definition GetVaultSecret (w : World) (path : string) : string + Secret :=
  match vault_NewClient w with
  | Some err => inl ("Vault - Client Error: " +:+ err)
  | None =>
    match vault_Read w path with
    | ReadErr err => inl ("Vault - Read Error: " +:+ err)
    | ReadNil => inl ("Vault - No secret at path: " +:+ path)
    | ReadOk vaultSecret => inr vaultSecret
    end
  end.

(** ** [app.Action] (lines 134-229) *)

(** The destinations of the four flags when the action runs. *)
Record Flags := mkFlags {
  env : string;
  dc : string;
  varsFile : string;
  mlockBool : bool
}.

(** Modelled from the spec: [enableMlock] is called on line 136 and defined
    in a file that is not among the sources.  Section 4.5: with the flag
    set it attempts to lock the process memory, a failure is reported and
    does not abort; without the flag it does nothing.  Section 6 sends
    reports to standard error. *)
Definition enableMlock (w : World) (mlock : bool) : M unit :=
  if mlock then
    emit EvMlockall ;;
    match mlockall w with
    | Some err => emit (EvStderr err)
    | None => mret tt
    end
  else mret tt.

(** [fmt.Printf("export %s=%q\n", k, v)] *)
Definition export_var (w : World) (k v : string) : string :=
  "export " +:+ k +:+ "=" +:+ Quote (isPrint_table w) v +:+ newline.

(** [fmt.Printf("export %s=%q # %s\n", k, secret.Data["value"], path)] *)
Definition export_secret (w : World) (k : string) (secret : Secret) (path : string) : string :=
  "export " +:+ k +:+ "=" +:+ fmt_q w (Data_value secret) +:+ " # " +:+ path +:+ newline.

(** Body of the three loops over variables. *)
Definition print_var (w : World) (k v : string) : M unit :=
  Printf (export_var w k v).

(** Body of the three loops over secrets. *)
Definition print_secret (w : World) (k path : string) : M unit :=
  match GetVaultSecret w path with
  | inr secret =>
    emit (EvGetVaultSecret path None) ;;
    Printf (export_secret w k secret path)
  | inl err =>
    emit (EvGetVaultSecret path (Some err)) ;;
    exit_with (NewExitError err VaultErrorCode)
  end.

(** Lines 149-163: the values of [legacy], [config] and [configV1]
    afterwards. *)
Definition load (w : World) (yamlFile : string) : M (bool * Config * ConfigV1) :=
  emit (EvUnmarshal V2) ;;
  let '(config, err) := Unmarshal_Config w yamlFile in
  match err with
  | None => mret (false, config, zeroConfigV1)
  | Some _ =>
    emit (EvUnmarshal V1) ;;
    let '(configV1, err) := Unmarshal_ConfigV1 w yamlFile in
    match err with
    | Some e =>
      Println e ;;
      exit_with (NewExitError "unable to unmarshal yaml" YamlErrorCode)
    | None => mret (true, config, configV1)
    end
  end.

(** Lines 165-169 *)
Definition print_header (e d : string) : M unit :=
  Println "# Setting Variables for:" ;;
  Printf ("# Environment: " +:+ e +:+ newline) ;;
  if decide (d = "") then mret tt else Printf ("# Datacenter: " +:+ d +:+ newline).

(** Lines 171-185 *)
Definition print_globals (w : World) (config : Config) : M unit :=
  Println "# Global Vars:" ;;
  for_range (range_order w GlobalVars (Vars config)) (print_var w) ;;
  Println "# Global Secrets:" ;;
  for_range (range_order w GlobalSecrets (Secrets_ config)) (print_secret w).

(** Lines 187-201 *)
Definition print_environment (w : World) (config : Config) (e : string) : M unit :=
  Printf ("# Environment (" +:+ e +:+ ") Vars:" +:+ newline) ;;
  for_range (range_order w EnvironmentVars
               (env_Vars (index zeroEnvironment (Environments config) e))) (print_var w) ;;
  Printf ("# Environment (" +:+ e +:+ ") Secrets:" +:+ newline) ;;
  for_range (range_order w EnvironmentSecrets
               (env_Secrets (index zeroEnvironment (Environments config) e))) (print_secret w).

(** Lines 203-226 *)
Definition print_datacenter (w : World) (legacy : bool) (config : Config) (e d : string) : M unit :=
  let Dcs := env_Dcs (index zeroEnvironment (Environments config) e) in
  if legacy then
    if decide (d = "") then mret tt
    else
      Printf ("# Datacenter (" +:+ d +:+ ") Specific Vars:" +:+ newline) ;;
      for_range (range_order w DatacenterVars (dc_Vars (index zeroDc Dcs d))) (print_var w)
  else
    Printf ("# Datacenter (" +:+ e +:+ ") Specific Vars:" +:+ newline) ;;
    for_range (range_order w DatacenterVars (dc_Vars (index zeroDc Dcs d))) (print_var w) ;;
    Printf ("# Datacenter (" +:+ e +:+ ") Specific Secrets:" +:+ newline) ;;
    for_range (range_order w DatacenterSecrets (dc_Secrets (index zeroDc Dcs d))) (print_secret w).

(** Lines 165-228: everything printed once the document is loaded.  The
    closure reads [config] in both modes; [configV1] is not read again. *)
Definition emission (w : World) (f : Flags) (legacy : bool) (config : Config) : M unit :=
  print_header (env f) (dc f) ;;
  print_globals w config ;;
  print_environment w config (env f) ;;
  print_datacenter w legacy config (env f) (dc f).

Definition Action (w : World) (f : Flags) : M unit :=
  enableMlock w (mlockBool f) ;;
  if decide (env f = "") then
    exit_with (NewExitError "environment is required" EnvErrorCode)
  else
    let filename := filepath_Abs w (varsFile f) in
    emit (EvReadFile filename) ;;
    match ReadFile w filename with
    | None =>
      exit_with (NewExitError ("unable to read variable file " +:+ varsFile f) FileErrorCode)
    | Some yamlFile =>
      '(legacy, config, configV1) ← load w yamlFile ;
      emission w f legacy config
    end.

(** [app.Run]: an [ExitError] returned by the action has its message, when
    there is one, written to standard error, and its code becomes the exit
    status; otherwise the status is 0. *)
Definition main (w : World) (f : Flags) : list Event * Z :=
  let '(t, r) := Action w f in
  match r with
  | inl e =>
    (t ++ (if decide (message e = "") then [] else [EvStderr (message e +:+ newline)]),
     exitCode e)
  | inr _ => (t, 0)
  end.

(** ** A model of the collaborators, to run the program on documents

    [yaml] follows the decoder of gopkg.in/yaml.v2 for the node kinds and
    target types of this program: decoding goes on after a type error and
    leaves in the target what did decode, unknown keys of a struct are
    ignored, a field is found under its lower-cased name.  The parser
    covers single documents in flow style with plain scalars; anchors,
    tags, quoted and block forms are outside the model and read as syntax
    errors.  The text of an error report is not reproduced. *)
Module yaml.

#[local] Set Warnings "-register-all".

Inductive node :=
| scalarNode (value : string)
| nullNode
| mappingNode (children : list (node * node)).

Inductive token := TLBrace | TRBrace | TComma | TColon | TWord (s : string).

Definition is_space (c : ascii) : bool :=
  (byte c =? 32) || (byte c =? 10) || (byte c =? 13) || (byte c =? 9).

Definition flush (word : string) (ts : list token) : list token :=
  if decide (word = "") then ts else TWord word :: ts.

(** Tokens of [s], read right to left: [word] is the plain scalar that
    starts at the head of the part already read. *)
Fixpoint tokens (s : string) : string * list token :=
  match s with
  | EmptyString => ("", [])
  | String c rest =>
    let '(word, ts) := tokens rest in
    if is_space c then ("", flush word ts)
    else if byte c =? 123 then ("", TLBrace :: flush word ts)
    else if byte c =? 125 then ("", TRBrace :: flush word ts)
    else if byte c =? 44 then ("", TComma :: flush word ts)
    else if (byte c =? 58) &&
            match rest with
            | EmptyString => true
            | String c' _ => is_space c'
            end
    then ("", TColon :: flush word ts)
    else (String c word, ts)
  end.

Definition tokenize (s : string) : list token :=
  let '(word, ts) := tokens s in flush word ts.

(** Plain scalars that resolve to null. *)
Definition scalar (s : string) : node :=
  if decide (s = "~" ∨ s = "null" ∨ s = "Null" ∨ s = "NULL") then nullNode
  else scalarNode s.

Fixpoint parse_node (fuel : nat) (ts : list token) : option (node * list token) :=
  match fuel with
  | O => None
  | S fuel =>
    match ts with
    | TWord s :: rest => Some (scalar s, rest)
    | TLBrace :: TRBrace :: rest => Some (mappingNode [], rest)
    | TLBrace :: rest =>
      match parse_pairs fuel rest with
      | Some (ps, rest') => Some (mappingNode ps, rest')
      | None => None
      end
    | _ => None
    end
  end
with parse_pairs (fuel : nat) (ts : list token) : option (list (node * node) * list token) :=
  match fuel with
  | O => None
  | S fuel =>
    match ts with
    | TWord k :: TColon :: rest =>
      match parse_node fuel rest with
      | Some (v, TRBrace :: rest') => Some ([(scalar k, v)], rest')
      | Some (v, TComma :: rest') =>
        match parse_pairs fuel rest' with
        | Some (ps, rest'') => Some ((scalar k, v) :: ps, rest'')
        | None => None
        end
      | _ => None
      end
    | _ => None
    end
  end.

Inductive parsed :=
| SyntaxError
| EmptyDocument
| Document (root : node).

Definition parse (bytes : string) : parsed :=
  match tokenize bytes with
  | [] => EmptyDocument
  | ts =>
    match parse_node (S (List.length ts)) ts with
    | Some (n, []) => Document n
    | _ => SyntaxError
    end
  end.

(** A decoder takes the node and the current value of the target, and
    gives the new value, the number of type errors recorded, and the
    result of [d.unmarshal] (whether the target now holds a value). *)
Definition decoder (V : Type) : Type := node -> V -> V * nat * bool.

Definition decode_string : decoder string := fun n out =>
  match n with
  | scalarNode value => (value, 0%nat, true)
  | nullNode => ("", 0%nat, true)
  | mappingNode _ => (out, 1%nat, false)
  end.

(** [d.mapping] into a Go map: each element is decoded into a fresh zero
    value and stored when that succeeds; a later key replaces an earlier
    one. *)
Fixpoint decode_map_children {V} (zero : V) (elem : decoder V)
    (children : list (node * node)) (out : gmap string V) : gmap string V * nat :=
  match children with
  | [] => (out, 0%nat)
  | (nk, nv) :: rest =>
    let '(k, ek, goodk) := decode_string nk "" in
    if goodk then
      let '(e, ev, goodv) := elem nv zero in
      let '(out', er) := decode_map_children zero elem rest (if goodv then <[k := e]> out else out) in
      (out', (ek + ev + er)%nat)
    else
      let '(out', er) := decode_map_children zero elem rest out in
      (out', (ek + er)%nat)
  end.

Definition decode_map {V} (zero : V) (elem : decoder V) : decoder (gmap string V) := fun n out =>
  match n with
  | mappingNode children =>
    let '(out', e) := decode_map_children zero elem children out in (out', e, true)
  | nullNode => (∅, 0%nat, true)
  | scalarNode _ => (out, 1%nat, false)
  end.

(** [d.mappingStruct]: [field name v out] decodes [v] into the field
    called [name], or leaves [out] alone when there is no such field. *)
Fixpoint decode_struct_children {S} (field : string -> node -> S -> S * nat)
    (children : list (node * node)) (out : S) : S * nat :=
  match children with
  | [] => (out, 0%nat)
  | (nk, nv) :: rest =>
    let '(name, ek, goodk) := decode_string nk "" in
    if goodk then
      let '(out1, ev) := field name nv out in
      let '(out2, er) := decode_struct_children field rest out1 in
      (out2, (ek + ev + er)%nat)
    else
      let '(out2, er) := decode_struct_children field rest out in
      (out2, (ek + er)%nat)
  end.

Definition decode_struct {S} (zero : S) (field : string -> node -> S -> S * nat) : decoder S :=
  fun n out =>
  match n with
  | mappingNode children =>
    let '(out', e) := decode_struct_children field children out in (out', e, true)
  | nullNode => (zero, 0%nat, true)
  | scalarNode _ => (out, 1%nat, false)
  end.

Definition decode_EnvVars : decoder (gmap string string) := decode_map "" decode_string.

Definition Dc_field (name : string) (v : node) (out : Dc) : Dc * nat :=
  if decide (name = "vars") then
    let '(m, e, _) := decode_EnvVars v (dc_Vars out) in (mkDc m (dc_Secrets out), e)
  else if decide (name = "secrets") then
    let '(m, e, _) := decode_EnvVars v (dc_Secrets out) in (mkDc (dc_Vars out) m, e)
  else (out, 0%nat).

Definition decode_Dc : decoder Dc := decode_struct zeroDc Dc_field.

Definition Environment_field (name : string) (v : node) (out : Environment) : Environment * nat :=
  if decide (name = "vars") then
    let '(m, e, _) := decode_EnvVars v (env_Vars out) in
    (mkEnvironment m (env_Secrets out) (env_Dcs out), e)
  else if decide (name = "secrets") then
    let '(m, e, _) := decode_EnvVars v (env_Secrets out) in
    (mkEnvironment (env_Vars out) m (env_Dcs out), e)
  else if decide (name = "dcs") then
    let '(m, e, _) := decode_map zeroDc decode_Dc v (env_Dcs out) in
    (mkEnvironment (env_Vars out) (env_Secrets out) m, e)
  else (out, 0%nat).

Definition decode_Environment : decoder Environment :=
  decode_struct zeroEnvironment Environment_field.

Definition Config_field (name : string) (v : node) (out : Config) : Config * nat :=
  if decide (name = "vars") then
    let '(m, e, _) := decode_EnvVars v (Vars out) in
    (mkConfig m (Secrets_ out) (Environments out), e)
  else if decide (name = "secrets") then
    let '(m, e, _) := decode_EnvVars v (Secrets_ out) in
    (mkConfig (Vars out) m (Environments out), e)
  else if decide (name = "environments") then
    let '(m, e, _) := decode_map zeroEnvironment decode_Environment v (Environments out) in
    (mkConfig (Vars out) (Secrets_ out) m, e)
  else (out, 0%nat).

Definition decode_Config : decoder Config := decode_struct zeroConfig Config_field.

Definition EnvironmentV1_field (name : string) (v : node) (out : EnvironmentV1)
    : EnvironmentV1 * nat :=
  if decide (name = "vars") then
    let '(m, e, _) := decode_EnvVars v (envV1_Vars out) in
    (mkEnvironmentV1 m (envV1_Secrets out) (envV1_Dcs out), e)
  else if decide (name = "secrets") then
    let '(m, e, _) := decode_EnvVars v (envV1_Secrets out) in
    (mkEnvironmentV1 (envV1_Vars out) m (envV1_Dcs out), e)
  else if decide (name = "dcs") then
    let '(m, e, _) := decode_map ∅ decode_EnvVars v (envV1_Dcs out) in
    (mkEnvironmentV1 (envV1_Vars out) (envV1_Secrets out) m, e)
  else (out, 0%nat).

Definition decode_EnvironmentV1 : decoder EnvironmentV1 :=
  decode_struct zeroEnvironmentV1 EnvironmentV1_field.

Definition ConfigV1_field (name : string) (v : node) (out : ConfigV1) : ConfigV1 * nat :=
  if decide (name = "vars") then
    let '(m, e, _) := decode_EnvVars v (VarsV1 out) in
    (mkConfigV1 m (SecretsV1 out) (EnvironmentsV1 out), e)
  else if decide (name = "secrets") then
    let '(m, e, _) := decode_EnvVars v (SecretsV1 out) in
    (mkConfigV1 (VarsV1 out) m (EnvironmentsV1 out), e)
  else if decide (name = "environments") then
    let '(m, e, _) := decode_map zeroEnvironmentV1 decode_EnvironmentV1 v (EnvironmentsV1 out) in
    (mkConfigV1 (VarsV1 out) (SecretsV1 out) m, e)
  else (out, 0%nat).

Definition decode_ConfigV1 : decoder ConfigV1 := decode_struct zeroConfigV1 ConfigV1_field.

(** [yaml.Unmarshal(bytes, &out)] with [out] at its zero value. *)
Definition Unmarshal {S} (zero : S) (dec : decoder S) (bytes : string) : S * option string :=
  match parse bytes with
  | SyntaxError => (zero, Some "yaml: syntax error")
  | EmptyDocument => (zero, None)
  | Document root =>
    let '(out, e, _) := dec root zero in
    (out, if (e =? 0)%nat then None else Some "yaml: unmarshal errors")
  end.

(** The V1 translation of a V2 document, after the specification: the
    same document with the value of every datacenter replaced by its
    mapping of variables. *)
Definition is_key (name : string) (k : node) : bool :=
  match k with
  | scalarNode s => String.eqb s name
  | _ => false
  end.

Definition map_values (f : node -> node) (n : node) : node :=
  match n with
  | mappingNode children => mappingNode (map (fun kv => (kv.1, f kv.2)) children)
  | _ => n
  end.

Definition at_key (name : string) (f : node -> node) (n : node) : node :=
  match n with
  | mappingNode children =>
    mappingNode (map (fun kv => if is_key name kv.1 then (kv.1, f kv.2) else kv) children)
  | _ => n
  end.

Definition flat_dc (n : node) : node :=
  match n with
  | mappingNode children =>
    match List.find (fun kv => is_key "vars" kv.1) children with
    | Some kv => kv.2
    | None => mappingNode []
    end
  | _ => n
  end.

Definition v1_translation : node -> node :=
  at_key "environments" (map_values (at_key "dcs" (map_values flat_dc))).

End yaml.

(** A world made of a file system, a Vault store that answers with the
    records of [store] and with no record elsewhere, the decoder above,
    maps visited in key order and every rune above U+00FF printable. *)
Definition sample_world (files : gmap string string) (store : gmap string Secret) : World :=
  {| mlockall := None;
     filepath_Abs := fun p => "/work/" +:+ p;
     ReadFile := fun p => files !! p;
     Unmarshal_Config := yaml.Unmarshal zeroConfig yaml.decode_Config;
     Unmarshal_ConfigV1 := yaml.Unmarshal zeroConfigV1 yaml.decode_ConfigV1;
     vault_NewClient := None;
     vault_Read := fun path =>
       match store !! path with
       | Some s => ReadOk s
       | None => ReadNil
       end;
     range_order := fun _ m => map_to_list m;
     isPrint_table := fun _ => true |}.

(** ** Variations of a world *)

(** The same world with another Vault behind it. *)
Definition with_vault (w : World) (newClient : option string) (read : string -> ReadResult) : World :=
  mkWorld (mlockall w) (filepath_Abs w) (ReadFile w) (Unmarshal_Config w) (Unmarshal_ConfigV1 w)
          newClient read (range_order w) (isPrint_table w).

(** The same world with the maps visited in another order. *)
Definition with_range_order (w : World)
    (order : Loop -> gmap string string -> list (string * string)) : World :=
  mkWorld (mlockall w) (filepath_Abs w) (ReadFile w) (Unmarshal_Config w) (Unmarshal_ConfigV1 w)
          (vault_NewClient w) (vault_Read w) order (isPrint_table w).

(** Every path declared in the bucket [m] has a record in Vault. *)
Definition resolves (w : World) (m : gmap string string) : Prop :=
  forall k path, m !! k = Some path -> exists secret, GetVaultSecret w path = inr secret.

(** An event that records a fetch which returned an error. *)
Definition failed_fetch (e : Event) : bool :=
  match e with
  | EvGetVaultSecret _ (Some _) => true
  | _ => false
  end.

(** ** Predicates on runs *)

Inductive fail_fast {A} (m : M A) : Prop :=
| ff_returned a :
    m.2 = inr a -> Forall (fun e => failed_fetch e = false) m.1 -> fail_fast m
| ff_vault pre path err :
    m.1 = pre ++ [EvGetVaultSecret path (Some err)] ->
    Forall (fun e => failed_fetch e = false) pre ->
    m.2 = inl (NewExitError err VaultErrorCode) -> fail_fast m
| ff_other e :
    m.2 = inl e -> exitCode e <> VaultErrorCode ->
    Forall (fun e => failed_fetch e = false) m.1 -> fail_fast m.

(** [m] ran against a store, [m'] against one that answers at least as
    often: what [m] printed is a prefix of what [m'] printed, and when [m]
    returned, [m'] returned the same value after the same output. *)
Definition extends_run {A} (m m' : M A) : Prop :=
  stdout m.1 `prefix_of` stdout m'.1 /\
  forall a, m.2 = inr a -> m'.2 = inr a /\ stdout m.1 = stdout m'.1.

(** Every logged fetch carries the answer of [GetVaultSecret]. *)
Definition faithful (w : World) (e : Event) : Prop :=
  match e with
  | EvGetVaultSecret path (Some err) => GetVaultSecret w path = inl err
  | EvGetVaultSecret path None => exists secret, GetVaultSecret w path = inr secret
  | _ => True
  end.

(** ** The output grammar of the specification (section 4.4)

    The lines the specification lists for each part of the output, to be
    compared with what the program prints. *)

(** The line for a secret whose path has a record. *)
Definition secret_line (w : World) (kv : string * string) : string :=
  match GetVaultSecret w kv.2 with
  | inr secret => export_secret w kv.1 secret kv.2
  | inl _ => ""
  end.

Definition var_lines (w : World) (l : Loop) (m : gmap string string) : list string :=
  map (fun kv => export_var w kv.1 kv.2) (range_order w l m).

Definition secret_lines (w : World) (l : Loop) (m : gmap string string) : list string :=
  map (secret_line w) (range_order w l m).

Definition header_lines (e d : string) : list string :=
  ["# Setting Variables for:" +:+ newline; "# Environment: " +:+ e +:+ newline] ++
  (if decide (d = "") then [] else ["# Datacenter: " +:+ d +:+ newline]).

Definition global_lines (w : World) (config : Config) : list string :=
  ["# Global Vars:" +:+ newline] ++ var_lines w GlobalVars (Vars config) ++
  ["# Global Secrets:" +:+ newline] ++ secret_lines w GlobalSecrets (Secrets_ config).

Definition environment_lines (w : World) (config : Config) (e : string) : list string :=
  ["# Environment (" +:+ e +:+ ") Vars:" +:+ newline] ++
  var_lines w EnvironmentVars (env_Vars (index zeroEnvironment (Environments config) e)) ++
  ["# Environment (" +:+ e +:+ ") Secrets:" +:+ newline] ++
  secret_lines w EnvironmentSecrets (env_Secrets (index zeroEnvironment (Environments config) e)).

(** The fetch of the secret of entry [kv] returns a record. *)
Definition fetches (w : World) (kv : string * string) : Prop :=
  exists secret, GetVaultSecret w kv.2 = inr secret.

Definition fetchesb (w : World) (kv : string * string) : bool :=
  match GetVaultSecret w kv.2 with
  | inr _ => true
  | inl _ => false
  end.

(** The datacenter part: both sections under the environment name in the
    current schema; in the legacy schema the variables alone, under the
    datacenter name, and only for a non-empty datacenter name. *)
Definition datacenter_lines (w : World) (legacy : bool) (config : Config) (e d : string)
    : list string :=
  let D := index zeroDc (env_Dcs (index zeroEnvironment (Environments config) e)) d in
  if legacy then
    if decide (d = "") then []
    else ["# Datacenter (" +:+ d +:+ ") Specific Vars:" +:+ newline] ++
         var_lines w DatacenterVars (dc_Vars D)
  else
    ["# Datacenter (" +:+ e +:+ ") Specific Vars:" +:+ newline] ++
    var_lines w DatacenterVars (dc_Vars D) ++
    ["# Datacenter (" +:+ e +:+ ") Specific Secrets:" +:+ newline] ++
    secret_lines w DatacenterSecrets (dc_Secrets D).

(** The secret entries a run visits, in the order of the visits. *)
Definition visited_secrets (w : World) (legacy : bool) (config : Config) (e d : string)
    : list (string * string) :=
  let E := index zeroEnvironment (Environments config) e in
  range_order w GlobalSecrets (Secrets_ config) ++
  range_order w EnvironmentSecrets (env_Secrets E) ++
  (if legacy then []
   else range_order w DatacenterSecrets (dc_Secrets (index zeroDc (env_Dcs E) d))).

(** ** Sample documents and stores *)

Definition variables_v2 : string :=
  "{vars: {FOO: bar}, secrets: {TOK: /kv/app/tok}, environments: {dev: {vars: {FOO: baz}, secrets: {KEY: /kv/dev/key}, dcs: {us_east: {vars: {REGION: us-east-1}, secrets: {CERT: /kv/dev/us_east/cert}}}}}}".

(** The record at /kv/dev/key has no "value" attribute. *)
Definition sample_store : gmap string Secret :=
  {[ "/kv/app/tok" := mkSecret {[ "value" := IString "s3cr3t" ]};
     "/kv/dev/key" := mkSecret {[ "data" := IString "k3y" ]};
     "/kv/dev/us_east/cert" := mkSecret {[ "value" := IString "c3rt" ]} ]}.

Definition sample_v2 : World :=
  sample_world {[ "/work/variables.yml" := variables_v2 ]} sample_store.

(** ** Values that need no escaping *)

(** Printable ASCII other than the double quote and the backslash. *)
Definition plain_char (c : ascii) : bool :=
  in_range 32 126 (byte c) && negb (byte c =? 34) && negb (byte c =? 92).

Fixpoint plain (v : string) : bool :=
  match v with
  | EmptyString => true
  | String c rest => plain_char c && plain rest
  end.

(** ** Output up to the order inside a bucket *)

(** Banner lines start with a hash sign; export lines start with "export". *)
Definition is_banner (s : string) : bool :=
  match s with
  | String c _ => byte c =? 35
  | EmptyString => false
  end.

(** The output cut at its banners: the lines before the first banner, and
    every banner with the lines that follow it up to the next one. *)
Fixpoint sections (out : list string) : list string * list (string * list string) :=
  match out with
  | [] => ([], [])
  | s :: rest =>
    let '(lines, secs) := sections rest in
    if is_banner s then ([], (s, lines) :: secs) else (s :: lines, secs)
  end.

(** The same banners in the same order, and under each banner the same
    lines up to their order. *)
Definition same_buckets (o1 o2 : list string) : Prop :=
  (sections o1).1 ≡ₚ (sections o2).1 /\
  Forall2 (fun s1 s2 => s1.1 = s2.1 /\ s1.2 ≡ₚ s2.2) (sections o1).2 (sections o2).2.

(** Outputs that differ by permuting runs of lines that are not banners. *)
Inductive bucket_equiv : list string -> list string -> Prop :=
| be_nil : bucket_equiv [] []
| be_line s o1 o2 : bucket_equiv o1 o2 -> bucket_equiv (s :: o1) (s :: o2)
| be_bucket l1 l2 o1 o2 :
    Forall (fun s => is_banner s = false) l1 -> l1 ≡ₚ l2 ->
    bucket_equiv o1 o2 -> bucket_equiv (l1 ++ o1) (l2 ++ o2).

(** Two runs of one computation under two iteration orders: both return
    the same value after outputs that agree up to the order inside
    buckets, or both leave with the same non-zero code after the same
    banners. *)
Definition same_run {A} (m1 m2 : M A) : Prop :=
  (exists a, m1.2 = inr a /\ m2.2 = inr a /\ bucket_equiv (stdout m1.1) (stdout m2.1)) \/
  (exists e1 e2, m1.2 = inl e1 /\ m2.2 = inl e2 /\
     exitCode e1 = exitCode e2 /\ exitCode e1 <> 0 /\
     List.filter is_banner (stdout m1.1) = List.filter is_banner (stdout m2.1)).

(** Two iteration orders: the key order of [map_to_list], and its reverse. *)
Definition key_order (l : Loop) (m : gmap string string) : list (string * string) :=
  map_to_list m.
Definition reverse_key_order (l : Loop) (m : gmap string string) : list (string * string) :=
  reverse (map_to_list m).

(** A document with two global secrets, and a store that holds only the
    first of them. *)
Definition variables_two_secrets : string := "{secrets: {A: /kv/a, B: /kv/b}}".
Definition sample_partial : World :=
  sample_world {[ "/work/variables.yml" := variables_two_secrets ]}
               {[ "/kv/a" := mkSecret {[ "value" := IString "1" ]} ]}.

(** The same world with another outcome of the decoding into [ConfigV1]. *)
Definition with_Unmarshal_ConfigV1 (w : World) (u : string -> ConfigV1 * option string) : World :=
  mkWorld (mlockall w) (filepath_Abs w) (ReadFile w) (Unmarshal_Config w) u
          (vault_NewClient w) (vault_Read w) (range_order w) (isPrint_table w).

(** [out] without the lines equal to [line]. *)
Definition without_line (line : string) (out : list string) : list string :=
  List.filter (fun s => negb (String.eqb s line)) out.

(** Legacy documents: a datacenter maps directly to its variables.  In the
    first two, one of the variables is called vars or secrets. *)
Definition variables_v1 : string :=
  "{environments: {dev: {dcs: {us_east: {REGION: us-east-1, vars: x}}}}}".
Definition variables_v1_qa : string :=
  "{vars: {A: b}, environments: {qa: {vars: {TIER: qa}, dcs: {west: {ZONE: w1, secrets: none}}}}}".
Definition variables_v1_plain : string :=
  "{environments: {dev: {dcs: {us_east: {REGION: us-east-1}}}}}".

(** Current-schema documents whose translations are [variables_v1_plain]
    and [variables_v1_vars]. *)
Definition variables_v2_plain : string :=
  "{environments: {dev: {dcs: {us_east: {vars: {REGION: us-east-1}}}}}}".
Definition variables_v2_vars : string :=
  "{vars: {FOO: bar}, environments: {dev: {vars: {FOO: baz}, dcs: {us_east: {vars: {vars: x}}}}}}".
Definition variables_v1_vars : string :=
  "{vars: {FOO: bar}, environments: {dev: {vars: {FOO: baz}, dcs: {us_east: {vars: x}}}}}".

Definition sample_files : World :=
  sample_world {[ "/work/variables.yml" := variables_v1;
                  "/work/qa.yml" := variables_v1_qa;
                  "/work/v1_plain.yml" := variables_v1_plain;
                  "/work/v2_plain.yml" := variables_v2_plain;
                  "/work/v2_vars.yml" := variables_v2_vars;
                  "/work/v1_vars.yml" := variables_v1_vars;
                  "/work/empty.yml" := "" ]} ∅.

(** The output of the run on [file] for the environment dev and the
    datacenter us_east. *)
Definition run_dev (file : string) : list string :=
  stdout (Action sample_files (mkFlags "dev" "us_east" file false)).1.

Definition secrets_banner_dev : string := "# Datacenter (dev) Specific Secrets:" +:+ newline.

(** ** Predicates on documents of the decoder model *)

Definition is_leaf (n : yaml.node) : bool :=
  match n with
  | yaml.mappingNode _ => false
  | _ => true
  end.

(** The string a key node decodes to. *)
Definition key_name (n : yaml.node) : string := (yaml.decode_string n "").1.1.

(** The datacenters of [m] have no variables. *)
Definition no_dc_vars (m : gmap string Dc) : Prop :=
  map_Forall (fun _ D => dc_Vars D = ∅) m.


(** ** Further predicates on runs *)

(** The paths handed to [GetVaultSecret], in the order of the calls. *)
Definition fetched_paths (t : list Event) : list string :=
  omap (fun e => match e with EvGetVaultSecret path _ => Some path | _ => None end) t.

(** [m] calls [GetVaultSecret] on a prefix of [paths], and on all of them
    when it returns. *)
Definition fetches_within {A} (m : M A) (paths : list string) : Prop :=
  fetched_paths m.1 `prefix_of` paths /\
  forall a, m.2 = inr a -> fetched_paths m.1 = paths.

(** When [m] leaves with an exit error, the error satisfies [P]. *)
Definition exits_within {A} (P : ExitError -> Prop) (m : M A) : Prop :=
  forall e, m.2 = inl e -> P e.

(** The three messages of [GetVaultSecret] (lines 53, 59 and 62). *)
Definition vault_message (w : World) (msg : string) : Prop :=
  (exists e, vault_NewClient w = Some e /\ msg = "Vault - Client Error: " +:+ e) \/
  (exists path e, vault_Read w path = ReadErr e /\ msg = "Vault - Read Error: " +:+ e) \/
  (exists path, vault_Read w path = ReadNil /\ msg = "Vault - No secret at path: " +:+ path).

(** The exit error of a failing fetch (lines 183, 199 and 223). *)
Definition vault_exit (w : World) (e : ExitError) : Prop :=
  exists msg, vault_message w msg /\ e = NewExitError msg VaultErrorCode.

(** The exit errors of lines 139, 146, 161 and 183/199/223. *)
Definition known_exit (w : World) (f : Flags) (e : ExitError) : Prop :=
  e = NewExitError "environment is required" EnvErrorCode \/
  e = NewExitError ("unable to read variable file " +:+ varsFile f) FileErrorCode \/
  e = NewExitError "unable to unmarshal yaml" YamlErrorCode \/
  vault_exit w e.

(** A line is a comment line or an export statement. *)
Definition comment_or_export (s : string) : Prop :=
  (exists rest, s = "# " +:+ rest) \/ (exists rest, s = "export " +:+ rest).

(** A file that holds no YAML mapping, and a world whose only file it is. *)
Definition sample_garbage : World :=
  sample_world {[ "/work/variables.yml" := "}{" ]} ∅.

(** [x] is printed, and [y] is printed later. *)
Definition printed_before (x y : string) (out : list string) : Prop :=
  exists a b c, out = a ++ x :: b ++ y :: c.

(** What an event writes to standard output is a comment or an export. *)
Definition writes_comment_or_export (e : Event) : Prop :=
  match e with
  | EvStdout s => comment_or_export s
  | _ => True
  end.

(** The banners of the datacenter part. *)
Definition datacenter_banners (legacy : bool) (e d : string) : list string :=
  if legacy then
    if decide (d = "") then []
    else ["# Datacenter (" +:+ d +:+ ") Specific Vars:" +:+ newline]
  else ["# Datacenter (" +:+ e +:+ ") Specific Vars:" +:+ newline;
        "# Datacenter (" +:+ e +:+ ") Specific Secrets:" +:+ newline].

(** A document whose only secret has no record in the store. *)
Definition variables_missing_secret : string :=
  "{vars: {FOO: bar}, secrets: {TOK: /kv/none}, environments: {dev: {vars: {FOO: baz}}}}".
Definition sample_missing : World :=
  sample_world {[ "/work/variables.yml" := variables_missing_secret ]} ∅.

(** A byte that is not an ASCII control character. *)
Definition graphic (c : ascii) : bool := (32 <=? byte c) && negb (byte c =? 127).

Fixpoint all_graphic (s : string) : bool :=
  match s with
  | EmptyString => true
  | String c rest => graphic c && all_graphic rest
  end.

(** Text without control characters, closed by one line feed. *)
Definition single_line (s : string) : Prop :=
  exists body, s = body +:+ newline /\ all_graphic body = true.
(** ** Monad laws used below *)

Lemma bind_inl {A B} (m : M A) (k : A -> M B) e :
  m.2 = inl e -> m ≫= k = (m.1, inl e).
Proof. destruct m as [t [e'|a]]; simpl; intros H; [by inversion H | done]. Qed.

Lemma bind_inr {A B} (m : M A) (k : A -> M B) a :
  m.2 = inr a -> m ≫= k = (m.1 ++ (k a).1, (k a).2).
Proof. destruct m as [t [e'|a']]; simpl; intros H; [done | by inversion H]. Qed.

Lemma bind_emit {B} (e : Event) (k : unit -> M B) :
  emit e ≫= k = (e :: (k tt).1, (k tt).2).
Proof. reflexivity. Qed.

Lemma bind_ret {A B} (a : A) (k : A -> M B) : mret a ≫= k = k a.
Proof. unfold mret, M_ret, mbind, M_bind. simpl. by destruct (k a). Qed.

Lemma bind_trace_prefix {A B} (m : M A) (k : A -> M B) :
  m.1 `prefix_of` (m ≫= k).1.
Proof.
  destruct m as [t [e|a]]; simpl; [done | by apply prefix_app_r].
Qed.

Lemma stdout_app (t1 t2 : list Event) : stdout (t1 ++ t2) = stdout t1 ++ stdout t2.
Proof. unfold stdout. apply omap_app. Qed.

Lemma stdout_prefix (t1 t2 : list Event) : t1 `prefix_of` t2 -> stdout t1 `prefix_of` stdout t2.
Proof. intros [t ->]. rewrite stdout_app. by apply prefix_app_r. Qed.

Lemma fail_fast_bind {A B} (m : M A) (k : A -> M B) :
  fail_fast m -> (forall a, fail_fast (k a)) -> fail_fast (m ≫= k).
Proof.
  intros Hm Hk. destruct Hm as [a Ha Hall | pre path err Ht Hpre Hr | e He Hc Hall].
  - rewrite (bind_inr _ _ _ Ha). destruct (Hk a) as [b Hb Hall' | pre path err Ht Hpre Hr | e He Hc Hall'].
    + eapply ff_returned; simpl; [done | by apply Forall_app].
    + eapply (ff_vault _ (m.1 ++ pre)); simpl; [by rewrite Ht, app_assoc | by apply Forall_app | done].
    + eapply ff_other; simpl; [done | done | by apply Forall_app].
  - rewrite (bind_inl _ _ _ Hr). by eapply ff_vault.
  - rewrite (bind_inl _ _ _ He). by eapply ff_other.
Qed.

Lemma fail_fast_ret {A} (a : A) : fail_fast (mret a : M A).
Proof. by eapply ff_returned. Qed.

Lemma fail_fast_emit (e : Event) : failed_fetch e = false -> fail_fast (emit e).
Proof. intros H. eapply ff_returned; simpl; [done | by repeat constructor]. Qed.

Lemma fail_fast_exit {A} (e : ExitError) :
  exitCode e <> VaultErrorCode -> fail_fast (exit_with e : M A).
Proof. intros H. by eapply ff_other. Qed.

Lemma fail_fast_print_secret w k path : fail_fast (print_secret w k path).
Proof.
  unfold print_secret. destruct (GetVaultSecret w path) as [err|secret].
  - by eapply (ff_vault _ []).
  - eapply ff_returned; simpl; [done | by repeat constructor].
Qed.

Lemma fail_fast_for_range l (body : string -> string -> M unit) :
  (forall k v, fail_fast (body k v)) -> fail_fast (for_range l body).
Proof.
  intros Hb. induction l as [|[k v] l IH]; simpl.
  - apply fail_fast_ret.
  - apply fail_fast_bind; [apply Hb | by intros _].
Qed.

Lemma fail_fast_print_var w k v : fail_fast (print_var w k v).
Proof. by apply fail_fast_emit. Qed.

Lemma fail_fast_enableMlock w b : fail_fast (enableMlock w b).
Proof.
  unfold enableMlock. destruct b; [|apply fail_fast_ret].
  apply fail_fast_bind; [by apply fail_fast_emit|]. intros _.
  destruct (mlockall w); [by apply fail_fast_emit | apply fail_fast_ret].
Qed.

Lemma fail_fast_load w yamlFile : fail_fast (load w yamlFile).
Proof.
  unfold load. apply fail_fast_bind; [by apply fail_fast_emit|]. intros _.
  destruct (Unmarshal_Config w yamlFile) as [config [e|]]; [|apply fail_fast_ret].
  apply fail_fast_bind; [by apply fail_fast_emit|]. intros _.
  destruct (Unmarshal_ConfigV1 w yamlFile) as [configV1 [e'|]]; [|apply fail_fast_ret].
  apply fail_fast_bind; [by apply fail_fast_emit|]. intros _.
  by apply fail_fast_exit.
Qed.

Ltac fail_fast_step :=
  first
    [ apply fail_fast_ret
    | apply fail_fast_emit; reflexivity
    | apply fail_fast_for_range; intros; first [apply fail_fast_print_var | apply fail_fast_print_secret]
    | apply fail_fast_bind; [|intros ?] ].

Lemma fail_fast_emission w f legacy config : fail_fast (emission w f legacy config).
Proof.
  unfold emission, print_header, print_globals, print_environment, print_datacenter, Println, Printf.
  repeat (fail_fast_step || case_decide || destruct legacy).
Qed.

Lemma fail_fast_Action w f : fail_fast (Action w f).
Proof.
  unfold Action. apply fail_fast_bind; [apply fail_fast_enableMlock|]. intros _.
  case_decide; [by apply fail_fast_exit|].
  apply fail_fast_bind; [by apply fail_fast_emit|]. intros _.
  destruct (ReadFile w _); [|by apply fail_fast_exit].
  apply fail_fast_bind; [apply fail_fast_load|]. intros [[legacy config] configV1].
  apply fail_fast_emission.
Qed.

Lemma failing_fetch_is_last (pre pre' post : list Event) (x y : Event) :
  Forall (fun e => failed_fetch e = false) pre' ->
  failed_fetch y = true ->
  pre' ++ [x] = pre ++ y :: post ->
  post = [] /\ pre = pre' /\ x = y.
Proof.
  revert pre. induction pre' as [|a pre' IH]; intros pre Hall Hy Heq.
  - destruct pre as [|b pre]; simpl in Heq.
    + by inversion Heq.
    + inversion Heq as [[Hb Hnil]]. by destruct pre.
  - inversion Hall as [|? ? Ha Hall']; subst. destruct pre as [|b pre]; simpl in Heq.
    + inversion Heq; subst. congruence.
    + inversion Heq as [[Hb Hrest]]. destruct (IH pre Hall' Hy Hrest) as (-> & -> & ->). done.
Qed.

Lemma no_failed_fetch_in (t pre post : list Event) (y : Event) :
  Forall (fun e => failed_fetch e = false) t ->
  failed_fetch y = true -> t <> pre ++ y :: post.
Proof.
  intros Hall Hy ->. apply Forall_app in Hall as [_ Hall].
  inversion Hall; congruence.
Qed.

(** ** The partial run is a prefix of the fuller run *)

Lemma extends_run_refl {A} (m : M A) : extends_run m m.
Proof. by split. Qed.

Lemma extends_run_bind {A B} (m m' : M A) (k k' : A -> M B) :
  extends_run m m' -> (forall a, extends_run (k a) (k' a)) ->
  extends_run (m ≫= k) (m' ≫= k').
Proof.
  intros [Hp Hr] Hk. destruct (m.2) as [e|a] eqn:Hm.
  - rewrite (bind_inl _ _ _ Hm). split; simpl.
    + etrans; [exact Hp|]. apply stdout_prefix, bind_trace_prefix.
    + intros a Ha. done.
  - destruct (Hr a eq_refl) as [Hm' Heq]. destruct (Hk a) as [Hkp Hkr].
    rewrite (bind_inr _ _ _ Hm), (bind_inr _ _ _ Hm'). split; simpl.
    + rewrite !stdout_app, Heq. by apply prefix_app.
    + intros b Hb. destruct (Hkr b Hb) as [-> Hkeq]. split; [done|].
      by rewrite !stdout_app, Heq, Hkeq.
Qed.

Lemma extends_run_for_range l (body body' : string -> string -> M unit) :
  (forall k v, extends_run (body k v) (body' k v)) ->
  extends_run (for_range l body) (for_range l body').
Proof.
  intros Hb. induction l as [|[k v] l IH]; simpl.
  - apply extends_run_refl.
  - apply extends_run_bind; [apply Hb | by intros _].
Qed.

Section fuller_store.
Context (w : World) (newClient : option string) (read : string -> ReadResult).
Let w' := with_vault w newClient read.
Hypothesis answers_more :
  forall path secret, GetVaultSecret w path = inr secret -> GetVaultSecret w' path = inr secret.

Lemma extends_run_print_secret k path :
  extends_run (print_secret w k path) (print_secret w' k path).
Proof.
  unfold print_secret. destruct (GetVaultSecret w path) as [err|secret] eqn:Hw.
  - split; simpl; [apply prefix_nil | done].
  - rewrite (answers_more _ _ Hw). apply extends_run_refl.
Qed.

Lemma extends_run_emission f legacy config :
  extends_run (emission w f legacy config) (emission w' f legacy config).
Proof.
  unfold emission, print_globals, print_environment, print_datacenter.
  repeat first
    [ apply extends_run_refl
    | apply extends_run_for_range; intros; first [apply extends_run_refl | apply extends_run_print_secret]
    | apply extends_run_bind; [|intros ?]
    | case_decide
    | destruct legacy ].
Qed.

Lemma extends_run_Action f : extends_run (Action w f) (Action w' f).
Proof.
  unfold Action. apply extends_run_bind; [apply extends_run_refl|]. intros _.
  case_decide; [apply extends_run_refl|].
  apply extends_run_bind; [apply extends_run_refl|]. intros _.
  change (ReadFile w' ?x) with (ReadFile w x).
  change (filepath_Abs w' ?x) with (filepath_Abs w x).
  destruct (ReadFile w _); [|apply extends_run_refl].
  apply extends_run_bind; [apply extends_run_refl|]. intros [[legacy config] configV1].
  apply extends_run_emission.
Qed.
End fuller_store.

Lemma Forall_trace_bind {A B} (P : Event -> Prop) (m : M A) (k : A -> M B) :
  Forall P m.1 -> (forall a, Forall P (k a).1) -> Forall P (m ≫= k).1.
Proof.
  intros Hm Hk. destruct m as [t [e|a]]; simpl in *; [done|].
  apply Forall_app; split; [done | apply Hk].
Qed.

Lemma Forall_trace_for_range (P : Event -> Prop) l (body : string -> string -> M unit) :
  (forall k v, Forall P (body k v).1) -> Forall P (for_range l body).1.
Proof.
  intros Hb. induction l as [|[k v] l IH]; simpl; [constructor|].
  apply Forall_trace_bind; [apply Hb | by intros _].
Qed.

Lemma faithful_print_secret w k path : Forall (faithful w) (print_secret w k path).1.
Proof.
  unfold print_secret. destruct (GetVaultSecret w path) as [err|secret] eqn:Hw; simpl.
  - repeat constructor. done.
  - repeat constructor. simpl. eauto.
Qed.

Ltac trace_step P lem :=
  first
    [ apply Forall_nil_2
    | apply (Forall_trace_for_range P); intros; first [lem | by repeat constructor]
    | apply (Forall_trace_bind P); [|intros ?]
    | by repeat constructor ].

Lemma faithful_Action w f : Forall (faithful w) (Action w f).1.
Proof.
  unfold Action, enableMlock, load, emission, print_header, print_globals,
    print_environment, print_datacenter, Println, Printf, print_var.
  repeat first
    [ trace_step (faithful w) ltac:(apply faithful_print_secret)
    | case_decide
    | match goal with
      | |- context [if ?b then _ else _] => destruct b
      | |- context [match ?x with _ => _ end] => destruct x
      end ].
Qed.

(** ** What the loops print *)

Lemma seq_returned {A B} (m : M A) (k : A -> M B) a :
  m.2 = inr a ->
  stdout (m ≫= k).1 = stdout m.1 ++ stdout (k a).1 /\ (m ≫= k).2 = (k a).2.
Proof. intros Hm. rewrite (bind_inr _ _ _ Hm). simpl. by rewrite stdout_app. Qed.

Lemma for_range_print_var w l :
  for_range l (print_var w) = (map (fun kv => EvStdout (export_var w kv.1 kv.2)) l, inr tt).
Proof.
  induction l as [|[k v] l IH]; [done|].
  change (for_range ((k, v) :: l) (print_var w))
    with (emit (EvStdout (export_var w k v)) ≫= fun _ => for_range l (print_var w)).
  by rewrite bind_emit, IH.
Qed.

Lemma stdout_map_EvStdout (l : list string) : stdout (map EvStdout l) = l.
Proof. induction l as [|s l IH]; simpl; [done | by f_equal]. Qed.

Lemma stdout_var_events w l :
  stdout (map (fun kv => EvStdout (export_var w kv.1 kv.2)) l) =
  map (fun kv => export_var w kv.1 kv.2) l.
Proof. rewrite <- (stdout_map_EvStdout (map _ l)). by rewrite map_map. Qed.

Lemma stdout_print_vars w l m :
  stdout (for_range (range_order w l m) (print_var w)).1 = var_lines w l m /\
  (for_range (range_order w l m) (print_var w)).2 = inr tt.
Proof.
  rewrite for_range_print_var. simpl. split; [|done].
  unfold var_lines. rewrite <- stdout_map_EvStdout. f_equal. by rewrite map_map.
Qed.

Lemma print_secret_fetches w k path :
  fetches w (k, path) ->
  (print_secret w k path).2 = inr tt /\
  stdout (print_secret w k path).1 = [secret_line w (k, path)].
Proof.
  intros [secret Hs]. unfold print_secret, secret_line. simpl in *. by rewrite Hs.
Qed.

Lemma for_range_print_secret_fetches w l :
  Forall (fetches w) l ->
  (for_range l (print_secret w)).2 = inr tt /\
  stdout (for_range l (print_secret w)).1 = map (secret_line w) l.
Proof.
  induction 1 as [|[k path] l Hkv Hl [IHr IHo]]; simpl; [done|].
  destruct (print_secret_fetches w k path Hkv) as [Hr Ho].
  destruct (seq_returned (print_secret w k path) (fun _ => for_range l (print_secret w)) tt Hr)
    as [-> ->].
  by rewrite Ho, IHo.
Qed.

(** Whatever the store answers, a loop over secrets prints the lines of
    the entries before the first failing fetch, and then either returns or
    leaves with code 6. *)
Lemma for_range_print_secret_any w l :
  exists done_,
    done_ `prefix_of` l /\ Forall (fetches w) done_ /\
    stdout (for_range l (print_secret w)).1 = map (secret_line w) done_ /\
    (((for_range l (print_secret w)).2 = inr tt /\ done_ = l) \/
     (exists err, (for_range l (print_secret w)).2 = inl (NewExitError err VaultErrorCode))).
Proof.
  induction l as [|[k path] l (done_ & Hp & Hall & Ho & Hr)]; simpl.
  - exists []. split_and!; [done | constructor | done | by left].
  - destruct (GetVaultSecret w path) as [err|secret] eqn:Hs.
    + assert (Hp1 : print_secret w k path =
                ([EvGetVaultSecret path (Some err)], inl (NewExitError err VaultErrorCode))).
      { unfold print_secret. by rewrite Hs. }
      exists []. rewrite Hp1. simpl.
      split_and!; [apply prefix_nil | constructor | done | right; eauto].
    + assert (Hf : fetches w (k, path)) by (by exists secret).
      destruct (print_secret_fetches w k path Hf) as [Hr1 Ho1].
      destruct (seq_returned (print_secret w k path) (fun _ => for_range l (print_secret w)) tt Hr1)
        as [-> ->].
      exists ((k, path) :: done_). rewrite Ho1, Ho. simpl.
      split_and!; [by apply prefix_cons | by constructor | done |].
      destruct Hr as [[Hr ->]|Hr]; [by left | by right].
Qed.

Lemma resolves_range w l m :
  range_ok w -> resolves w m -> Forall (fetches w) (range_order w l m).
Proof.
  intros Hok Hres. apply Forall_forall. intros [k path] Hin.
  rewrite (Hok l m) in Hin. apply elem_of_map_to_list in Hin.
  apply (Hres k path Hin).
Qed.

Lemma range_empty w l : range_ok w -> range_order w l ∅ = [].
Proof.
  intros Hok. apply Permutation_nil_r. by rewrite (Hok l ∅), map_to_list_empty.
Qed.

(** ** The parts of [app.Action] *)

Lemma stdout_cons (e : Event) (t : list Event) :
  stdout (e :: t) = stdout [e] ++ stdout t.
Proof. apply (stdout_app [e] t). Qed.

#[local] Arguments stdout : simpl never.
#[local] Arguments load : simpl never.
#[local] Arguments header_lines : simpl never.
#[local] Arguments emission : simpl never.
#[local] Arguments enableMlock : simpl never.
#[local] Arguments print_header : simpl never.
#[local] Arguments print_globals : simpl never.
#[local] Arguments print_environment : simpl never.
#[local] Arguments print_datacenter : simpl never.

Lemma enableMlock_run w b :
  (enableMlock w b).2 = inr tt /\ stdout (enableMlock w b).1 = [].
Proof. unfold enableMlock. destruct b; [destruct (mlockall w)|]; done. Qed.

Lemma load_V2 w yamlFile config :
  Unmarshal_Config w yamlFile = (config, None) ->
  load w yamlFile = ([EvUnmarshal V2], inr (false, config, zeroConfigV1)).
Proof. intros H. unfold load. by rewrite H. Qed.

Lemma load_V1 w yamlFile config e configV1 :
  Unmarshal_Config w yamlFile = (config, Some e) ->
  Unmarshal_ConfigV1 w yamlFile = (configV1, None) ->
  load w yamlFile = ([EvUnmarshal V2; EvUnmarshal V1], inr (true, config, configV1)).
Proof. intros H H1. unfold load. by rewrite H, H1. Qed.

Lemma load_fails w yamlFile config e configV1 e1 :
  Unmarshal_Config w yamlFile = (config, Some e) ->
  Unmarshal_ConfigV1 w yamlFile = (configV1, Some e1) ->
  load w yamlFile =
    ([EvUnmarshal V2; EvUnmarshal V1; EvStdout (e1 +:+ newline)],
     inl (NewExitError "unable to unmarshal yaml" YamlErrorCode)).
Proof. intros H H1. unfold load. by rewrite H, H1. Qed.

Lemma load_returned_stdout w yamlFile r :
  (load w yamlFile).2 = inr r -> stdout (load w yamlFile).1 = [].
Proof.
  unfold load. destruct (Unmarshal_Config w yamlFile) as [config [e|]]; [|done].
  by destruct (Unmarshal_ConfigV1 w yamlFile) as [configV1 [e1|]].
Qed.

Lemma Action_loaded w f yamlFile legacy config configV1 :
  env f <> "" ->
  ReadFile w (filepath_Abs w (varsFile f)) = Some yamlFile ->
  (load w yamlFile).2 = inr (legacy, config, configV1) ->
  stdout (Action w f).1 = stdout (emission w f legacy config).1 /\
  (Action w f).2 = (emission w f legacy config).2.
Proof.
  intros Henv Hfile Hload. unfold Action.
  destruct (enableMlock_run w (mlockBool f)) as [Hm Hmo].
  rewrite (bind_inr (enableMlock w (mlockBool f)) _ tt Hm).
  case_decide; [done|]. cbv zeta. rewrite bind_emit, Hfile.
  rewrite (bind_inr (load w yamlFile) _ _ Hload). cbn.
  rewrite stdout_app, stdout_cons, stdout_app, Hmo, (load_returned_stdout _ _ _ Hload). done.
Qed.

Lemma print_header_run e d : print_header e d = (map EvStdout (header_lines e d), inr tt).
Proof. unfold print_header, header_lines, Println, Printf. by case_decide. Qed.

Lemma print_globals_run w config :
  stdout (print_globals w config).1 =
    ["# Global Vars:" +:+ newline] ++ var_lines w GlobalVars (Vars config) ++
    ["# Global Secrets:" +:+ newline] ++
    stdout (for_range (range_order w GlobalSecrets (Secrets_ config)) (print_secret w)).1 /\
  (print_globals w config).2 =
    (for_range (range_order w GlobalSecrets (Secrets_ config)) (print_secret w)).2.
Proof.
  unfold print_globals, Println. rewrite for_range_print_var. cbn.
  by rewrite stdout_cons, stdout_app, (stdout_cons (EvStdout _)), stdout_var_events.
Qed.

Lemma print_environment_run w config e :
  let E := index zeroEnvironment (Environments config) e in
  stdout (print_environment w config e).1 =
    ["# Environment (" +:+ e +:+ ") Vars:" +:+ newline] ++
    var_lines w EnvironmentVars (env_Vars E) ++
    ["# Environment (" +:+ e +:+ ") Secrets:" +:+ newline] ++
    stdout (for_range (range_order w EnvironmentSecrets (env_Secrets E)) (print_secret w)).1 /\
  (print_environment w config e).2 =
    (for_range (range_order w EnvironmentSecrets (env_Secrets E)) (print_secret w)).2.
Proof.
  intros E. unfold print_environment, Printf. fold E. rewrite for_range_print_var. cbn.
  by rewrite stdout_cons, stdout_app, (stdout_cons (EvStdout _)), stdout_var_events.
Qed.

Lemma print_datacenter_V2 w config e d :
  let D := index zeroDc (env_Dcs (index zeroEnvironment (Environments config) e)) d in
  stdout (print_datacenter w false config e d).1 =
    ["# Datacenter (" +:+ e +:+ ") Specific Vars:" +:+ newline] ++
    var_lines w DatacenterVars (dc_Vars D) ++
    ["# Datacenter (" +:+ e +:+ ") Specific Secrets:" +:+ newline] ++
    stdout (for_range (range_order w DatacenterSecrets (dc_Secrets D)) (print_secret w)).1 /\
  (print_datacenter w false config e d).2 =
    (for_range (range_order w DatacenterSecrets (dc_Secrets D)) (print_secret w)).2.
Proof.
  intros D. unfold print_datacenter, Printf. fold D. rewrite for_range_print_var. cbn.
  by rewrite stdout_cons, stdout_app, (stdout_cons (EvStdout _)), stdout_var_events.
Qed.

Lemma print_datacenter_legacy w config e d :
  let D := index zeroDc (env_Dcs (index zeroEnvironment (Environments config) e)) d in
  stdout (print_datacenter w true config e d).1 =
    (if decide (d = "") then []
     else ["# Datacenter (" +:+ d +:+ ") Specific Vars:" +:+ newline] ++
          var_lines w DatacenterVars (dc_Vars D)) /\
  (print_datacenter w true config e d).2 = inr tt.
Proof.
  intros D. unfold print_datacenter, Printf. fold D. case_decide; [done|].
  rewrite for_range_print_var. cbn. by rewrite stdout_cons, stdout_var_events.
Qed.

(** Once the secrets of the global and environment buckets are fetched,
    the output is the three leading parts of the grammar followed by the
    datacenter part. *)
Lemma emission_run w f legacy config :
  Forall (fetches w) (range_order w GlobalSecrets (Secrets_ config)) ->
  Forall (fetches w) (range_order w EnvironmentSecrets
     (env_Secrets (index zeroEnvironment (Environments config) (env f)))) ->
  stdout (emission w f legacy config).1 =
    header_lines (env f) (dc f) ++ global_lines w config ++
    environment_lines w config (env f) ++
    stdout (print_datacenter w legacy config (env f) (dc f)).1 /\
  (emission w f legacy config).2 = (print_datacenter w legacy config (env f) (dc f)).2.
Proof.
  intros Hg He. unfold emission. rewrite print_header_run.
  destruct (for_range_print_secret_fetches _ _ Hg) as [Hgr Hgo].
  destruct (for_range_print_secret_fetches _ _ He) as [Her Heo].
  destruct (print_globals_run w config) as [Ho1 Hr1]. rewrite Hgr in Hr1. rewrite Hgo in Ho1.
  destruct (print_environment_run w config (env f)) as [Ho2 Hr2].
  cbv zeta in Ho2, Hr2. rewrite Her in Hr2. rewrite Heo in Ho2.
  rewrite (bind_inr (print_globals w config) _ tt Hr1).
  rewrite (bind_inr (print_environment w config (env f)) _ tt Hr2). cbn.
  rewrite !stdout_app, stdout_map_EvStdout, Ho1, Ho2.
  unfold global_lines, environment_lines, secret_lines. by rewrite <- !app_assoc.
Qed.

Lemma fetchesb_fetches w kv : fetchesb w kv = true <-> fetches w kv.
Proof.
  unfold fetchesb, fetches. destruct (GetVaultSecret w kv.2) as [err|secret].
  - split; [done | by intros [? ?]].
  - split; [eauto | done].
Qed.

Lemma resolves_check w m : forallb (fetchesb w) (map_to_list m) = true -> resolves w m.
Proof.
  intros Hall k path Hk. rewrite forallb_forall in Hall.
  apply (fetchesb_fetches w (k, path)), Hall, list_elem_of_In.
  by apply elem_of_map_to_list.
Qed.

Lemma Forall_fetches_check w l : forallb (fetchesb w) l = true -> Forall (fetches w) l.
Proof.
  intros Hall. apply Forall_forall. intros kv Hin. apply fetchesb_fetches.
  rewrite forallb_forall in Hall. by apply Hall, list_elem_of_In.
Qed.

Lemma range_ok_sample files store : range_ok (sample_world files store).
Proof. by intros l m. Qed.

(** A run in which every visited secret has a record prints the whole
    grammar and returns. *)
Lemma emission_all_fetched w f legacy config :
  Forall (fetches w) (visited_secrets w legacy config (env f) (dc f)) ->
  (emission w f legacy config).2 = inr tt /\
  stdout (emission w f legacy config).1 =
    header_lines (env f) (dc f) ++ global_lines w config ++
    environment_lines w config (env f) ++
    datacenter_lines w legacy config (env f) (dc f).
Proof.
  unfold visited_secrets. intros Hall.
  apply Forall_app in Hall as [Hg Hall]. apply Forall_app in Hall as [He Hd].
  destruct (emission_run w f legacy config Hg He) as [-> ->].
  unfold datacenter_lines. destruct legacy.
  - destruct (print_datacenter_legacy w config (env f) (dc f)) as [-> ->]. done.
  - destruct (print_datacenter_V2 w config (env f) (dc f)) as [-> ->].
    destruct (for_range_print_secret_fetches _ _ Hd) as [-> ->]. done.
Qed.

Lemma GetVaultSecret_error w path :
  (exists err, GetVaultSecret w path = inl err) <->
  (exists e, vault_NewClient w = Some e) \/
  (exists e, vault_Read w path = ReadErr e) \/
  vault_Read w path = ReadNil.
Proof.
  unfold GetVaultSecret. destruct (vault_NewClient w) as [e|].
  { split; eauto. }
  destruct (vault_Read w path) as [e| |s].
  - split; eauto.
  - split; eauto.
  - split; [by intros [err ?]|]. intros [[e ?]|[[e ?]|?]]; done.
Qed.

Lemma main_exit_code w f : (main w f).2 = exit_code (Action w f).2.
Proof. unfold main. by destruct (Action w f) as [t [e|[]]]. Qed.

(** ** Claims *)


(** C7: with an empty environment name the action returns the exit error
    "environment is required" with code 2; nothing is written to standard
    output, and no file is read, no document decoded and no secret fetched:
    the test comes before all of them. *)
Theorem C7_environment_required (w : World) (f : Flags) :
  env f = "" ->
  (Action w f).2 = inl (NewExitError "environment is required" EnvErrorCode) /\
  main w f = ((enableMlock w (mlockBool f)).1 ++
              [EvStderr ("environment is required" +:+ newline)], 2) /\
  stdout (Action w f).1 = [] /\
  Forall (fun e => e = EvMlockall \/ exists s, e = EvStderr s) (Action w f).1.
Proof.
  intros Henv. unfold main, Action. case_decide; [|done].
  unfold enableMlock. destruct (mlockBool f); [destruct (mlockall w)|]; simpl;
    split_and!; try done;
    repeat (apply Forall_cons_2; [first [by left | by right; eexists]|]);
    apply Forall_nil_2.
Qed.

Lemma C7_witness :
  env (mkFlags "" "us_east" "variables.yml" true) = "" /\
  main (sample_world ∅ ∅) (mkFlags "" "us_east" "variables.yml" true) =
    ([EvMlockall; EvStderr ("environment is required" +:+ newline)], 2).
Proof.
  split; [reflexivity|].
  destruct (C7_environment_required (sample_world ∅ ∅)
              (mkFlags "" "us_east" "variables.yml" true) eq_refl) as (_ & -> & _).
  reflexivity.
Defined.

(** C5: for a document loaded in the current schema, once the global and
    environment secrets are fetched, the run prints the banner
    "# Datacenter (<env>) Specific Vars:", the variables of the datacenter
    entry found under [dc], the banner
    "# Datacenter (<env>) Specific Secrets:" and the secrets of that entry,
    up to the first fetch that fails.  Both banners carry the environment
    name and are printed whether [dc] is empty or not; an absent key gives
    two empty sections. *)
Theorem C5_V2_datacenter_sections (w : World) (f : Flags) (yamlFile : string) (config : Config) :
  range_ok w ->
  env f <> "" ->
  ReadFile w (filepath_Abs w (varsFile f)) = Some yamlFile ->
  Unmarshal_Config w yamlFile = (config, None) ->
  resolves w (Secrets_ config) ->
  resolves w (env_Secrets (index zeroEnvironment (Environments config) (env f))) ->
  let Dcs := env_Dcs (index zeroEnvironment (Environments config) (env f)) in
  exists fetched,
    fetched `prefix_of` range_order w DatacenterSecrets (dc_Secrets (index zeroDc Dcs (dc f))) /\
    stdout (Action w f).1 =
      header_lines (env f) (dc f) ++ global_lines w config ++
      environment_lines w config (env f) ++
      ["# Datacenter (" +:+ env f +:+ ") Specific Vars:" +:+ newline] ++
      var_lines w DatacenterVars (dc_Vars (index zeroDc Dcs (dc f))) ++
      ["# Datacenter (" +:+ env f +:+ ") Specific Secrets:" +:+ newline] ++
      map (secret_line w) fetched /\
    (((main w f).2 = 0 /\
      fetched = range_order w DatacenterSecrets (dc_Secrets (index zeroDc Dcs (dc f)))) \/
     (main w f).2 = 6) /\
    (Dcs !! dc f = None ->
     var_lines w DatacenterVars (dc_Vars (index zeroDc Dcs (dc f))) = [] /\ fetched = []).
Proof.
  intros Hok Henv Hfile Hdec Hg He Dcs.
  pose proof (load_V2 _ _ _ Hdec) as Hload.
  destruct (Action_loaded w f yamlFile false config zeroConfigV1 Henv Hfile) as [Ho Hr].
  { by rewrite Hload. }
  destruct (emission_run w f false config) as [Heo Her];
    [by apply resolves_range | by apply resolves_range |].
  destruct (print_datacenter_V2 w config (env f) (dc f)) as [Hdo Hdr].
  cbv zeta in Hdo, Hdr. fold Dcs in Hdo, Hdr.
  destruct (for_range_print_secret_any w
              (range_order w DatacenterSecrets (dc_Secrets (index zeroDc Dcs (dc f)))))
    as (fetched & Hpre & _ & Hfo & Hfr).
  exists fetched. split_and!.
  - done.
  - by rewrite Ho, Heo, Hdo, Hfo.
  - rewrite main_exit_code, Hr, Her, Hdr.
    destruct Hfr as [[-> ->]|[err ->]]; [by left | by right].
  - intros Habsent.
    assert (HD : index zeroDc Dcs (dc f) = zeroDc) by (unfold index; by rewrite Habsent).
    rewrite HD in Hpre |- *. unfold var_lines. cbn [dc_Vars dc_Secrets zeroDc] in Hpre |- *.
    rewrite (range_empty w _ Hok) in Hpre. rewrite (range_empty w _ Hok).
    split; [done | by apply prefix_nil_inv].
Qed.

Lemma C5_witness :
  let w := sample_v2 in
  let f := mkFlags "dev" "" "variables.yml" false in
  let config := (Unmarshal_Config w variables_v2).1 in
  (range_ok w /\ env f <> "" /\
   ReadFile w (filepath_Abs w (varsFile f)) = Some variables_v2 /\
   Unmarshal_Config w variables_v2 = (config, None) /\
   resolves w (Secrets_ config) /\
   resolves w (env_Secrets (index zeroEnvironment (Environments config) (env f)))) /\
  exists fetched,
    stdout (Action w f).1 =
      header_lines "dev" "" ++ global_lines w config ++ environment_lines w config "dev" ++
      ["# Datacenter (dev) Specific Vars:" +:+ newline] ++ [] ++
      ["# Datacenter (dev) Specific Secrets:" +:+ newline] ++ map (secret_line w) fetched /\
    fetched = [].
Proof.
  intros w f config.
  assert (H1 : range_ok w) by apply range_ok_sample.
  assert (H2 : env f <> "") by done.
  assert (H3 : ReadFile w (filepath_Abs w (varsFile f)) = Some variables_v2)
    by (vm_compute; reflexivity).
  assert (H4 : Unmarshal_Config w variables_v2 = (config, None)) by (vm_compute; reflexivity).
  assert (H5 : resolves w (Secrets_ config)) by (apply resolves_check; vm_compute; reflexivity).
  assert (H6 : resolves w (env_Secrets (index zeroEnvironment (Environments config) (env f))))
    by (apply resolves_check; vm_compute; reflexivity).
  split; [done|].
  destruct (C5_V2_datacenter_sections w f variables_v2 config H1 H2 H3 H4 H5 H6)
    as (fetched & _ & Hout & _ & Habsent).
  destruct Habsent as [Hvars ->]; [vm_compute; reflexivity|].
  exists []. split; [|done]. rewrite Hout, Hvars. done.
Defined.


(** C8: an environment name that is not a key of the loaded
    [Environments], or a datacenter name that is not a key of the
    environment's [Dcs], gives sections without exports; when the secrets of
    the buckets that are present are fetched the run ends with exit code
    0. *)
Theorem C8_absent_layers_are_empty (w : World) (f : Flags) (yamlFile : string)
    (legacy : bool) (config : Config) (configV1 : ConfigV1) :
  range_ok w ->
  env f <> "" ->
  ReadFile w (filepath_Abs w (varsFile f)) = Some yamlFile ->
  (load w yamlFile).2 = inr (legacy, config, configV1) ->
  resolves w (Secrets_ config) ->
  let datacenter_banners :=
    if legacy then
      if decide (dc f = "") then []
      else ["# Datacenter (" +:+ dc f +:+ ") Specific Vars:" +:+ newline]
    else ["# Datacenter (" +:+ env f +:+ ") Specific Vars:" +:+ newline;
          "# Datacenter (" +:+ env f +:+ ") Specific Secrets:" +:+ newline] in
  (Environments config !! env f = None ->
   (main w f).2 = 0 /\
   stdout (Action w f).1 =
     header_lines (env f) (dc f) ++ global_lines w config ++
     ["# Environment (" +:+ env f +:+ ") Vars:" +:+ newline;
      "# Environment (" +:+ env f +:+ ") Secrets:" +:+ newline] ++
     datacenter_banners) /\
  (forall E,
   Environments config !! env f = Some E ->
   env_Dcs E !! dc f = None ->
   resolves w (env_Secrets E) ->
   (main w f).2 = 0 /\
   stdout (Action w f).1 =
     header_lines (env f) (dc f) ++ global_lines w config ++
     environment_lines w config (env f) ++ datacenter_banners) /\
  (Environments config !! env f = None ->
   emission w f legacy config =
   emission w f legacy
     (mkConfig (Vars config) (Secrets_ config)
        (<[env f := zeroEnvironment]> (Environments config)))) /\
  (forall E,
   Environments config !! env f = Some E ->
   env_Dcs E !! dc f = None ->
   emission w f legacy config =
   emission w f legacy
     (mkConfig (Vars config) (Secrets_ config)
        (<[env f := mkEnvironment (env_Vars E) (env_Secrets E)
                      (<[dc f := zeroDc]> (env_Dcs E))]> (Environments config)))).
Proof.
  intros Hok Henv Hfile Hload Hg banners.
  assert (Hsame : forall config',
    Vars config' = Vars config -> Secrets_ config' = Secrets_ config ->
    env_Vars (index zeroEnvironment (Environments config') (env f)) =
      env_Vars (index zeroEnvironment (Environments config) (env f)) ->
    env_Secrets (index zeroEnvironment (Environments config') (env f)) =
      env_Secrets (index zeroEnvironment (Environments config) (env f)) ->
    index zeroDc (env_Dcs (index zeroEnvironment (Environments config') (env f))) (dc f) =
      index zeroDc (env_Dcs (index zeroEnvironment (Environments config) (env f))) (dc f) ->
    emission w f legacy config = emission w f legacy config').
  { intros config' HV HS HEV HES HD.
    unfold emission, print_globals, print_environment, print_datacenter.
    by rewrite HV, HS, HEV, HES, HD. }
  destruct (Action_loaded w f yamlFile legacy config configV1 Henv Hfile Hload) as [Ho Hr].
  rewrite main_exit_code, Ho, Hr.
  assert (Hempty : forall l, Forall (fetches w) (range_order w l ∅)).
  { intros l. rewrite (range_empty w l Hok). constructor. }
  split_and!; [| |
    intros Habsent; apply Hsame; unfold index; cbn;
      rewrite ?lookup_insert_eq, ?Habsent; done |
    intros E HE Habsent; apply Hsame; unfold index; cbn;
      rewrite ?lookup_insert_eq, ?HE; cbn; rewrite ?lookup_insert_eq, ?Habsent; done ].
  - intros Habsent.
    destruct (emission_all_fetched w f legacy config) as [-> ->].
    { unfold visited_secrets, index. rewrite Habsent. simpl.
      repeat (apply Forall_app; split); [by apply resolves_range | apply Hempty |].
      destruct legacy; [constructor | apply Hempty]. }
    split; [done|]. unfold environment_lines, datacenter_lines, var_lines, secret_lines, index.
    rewrite Habsent. simpl. rewrite !(range_empty w _ Hok). subst banners.
    destruct legacy; [case_decide|]; done.
  - intros E HE Habsent He.
    destruct (emission_all_fetched w f legacy config) as [-> ->].
    { unfold visited_secrets, index. rewrite HE. simpl. rewrite Habsent. simpl.
      repeat (apply Forall_app; split); [by apply resolves_range | by apply resolves_range |].
      destruct legacy; [constructor | apply Hempty]. }
    split; [done|]. unfold datacenter_lines, var_lines, secret_lines, index.
    rewrite HE. simpl. rewrite Habsent. simpl. rewrite !(range_empty w _ Hok). subst banners.
    destruct legacy; [case_decide|]; done.
Qed.

Lemma C8_witness :
  let w := sample_v2 in
  let f := mkFlags "qa" "us_east" "variables.yml" false in
  let config := (Unmarshal_Config w variables_v2).1 in
  (range_ok w /\ env f <> "" /\
   ReadFile w (filepath_Abs w (varsFile f)) = Some variables_v2 /\
   (load w variables_v2).2 = inr (false, config, zeroConfigV1) /\
   resolves w (Secrets_ config) /\
   Environments config !! env f = None) /\
  (main w f).2 = 0 /\
  stdout (Action w f).1 =
    header_lines "qa" "us_east" ++ global_lines w config ++
    ["# Environment (qa) Vars:" +:+ newline; "# Environment (qa) Secrets:" +:+ newline;
     "# Datacenter (qa) Specific Vars:" +:+ newline;
     "# Datacenter (qa) Specific Secrets:" +:+ newline].
Proof.
  intros w f config.
  assert (H1 : range_ok w) by apply range_ok_sample.
  assert (H2 : env f <> "") by done.
  assert (H3 : ReadFile w (filepath_Abs w (varsFile f)) = Some variables_v2)
    by (vm_compute; reflexivity).
  assert (H4 : (load w variables_v2).2 = inr (false, config, zeroConfigV1))
    by (vm_compute; reflexivity).
  assert (H5 : resolves w (Secrets_ config)) by (apply resolves_check; vm_compute; reflexivity).
  assert (H6 : Environments config !! env f = None) by (vm_compute; reflexivity).
  split; [done|].
  destruct (C8_absent_layers_are_empty w f variables_v2 false config zeroConfigV1
              H1 H2 H3 H4 H5) as [Habsent _].
  exact (Habsent H6).
Defined.


(** C10: in a run where every visited secret has a record, the exit code
    is 0 whatever the records hold; for an entry whose record has no
    "value" the line "export <k>=%!q(<nil>) # <path>" is printed, and the
    loop goes on with the next entry. *)
Theorem C10_missing_value_is_printed (w : World) (f : Flags) (yamlFile : string)
    (legacy : bool) (config : Config) (configV1 : ConfigV1) :
  env f <> "" ->
  ReadFile w (filepath_Abs w (varsFile f)) = Some yamlFile ->
  (load w yamlFile).2 = inr (legacy, config, configV1) ->
  Forall (fetches w) (visited_secrets w legacy config (env f) (dc f)) ->
  (main w f).2 = 0 /\
  (forall k path secret,
     (k, path) ∈ visited_secrets w legacy config (env f) (dc f) ->
     GetVaultSecret w path = inr secret ->
     Data secret !! "value" = None ->
     ("export " +:+ k +:+ "=" +:+ "%!q(<nil>)" +:+ " # " +:+ path +:+ newline)
       ∈ stdout (Action w f).1) /\
  (forall k path secret rest,
     GetVaultSecret w path = inr secret ->
     Data secret !! "value" = None ->
     for_range ((k, path) :: rest) (print_secret w) =
       ([EvGetVaultSecret path None;
         EvStdout ("export " +:+ k +:+ "=" +:+ "%!q(<nil>)" +:+ " # " +:+ path +:+ newline)] ++
        (for_range rest (print_secret w)).1,
        (for_range rest (print_secret w)).2)).
Proof.
  intros Henv Hfile Hload Hall.
  destruct (Action_loaded w f yamlFile legacy config configV1 Henv Hfile Hload) as [Ho Hr].
  destruct (emission_all_fetched w f legacy config Hall) as [Her Heo].
  rewrite main_exit_code, Ho, Hr, Her, Heo.
  assert (Hline : forall k path secret,
    GetVaultSecret w path = inr secret -> Data secret !! "value" = None ->
    secret_line w (k, path) =
      "export " +:+ k +:+ "=" +:+ "%!q(<nil>)" +:+ " # " +:+ path +:+ newline).
  { intros k path secret Hs Hv. unfold secret_line, export_secret, Data_value. simpl.
    by rewrite Hs, Hv. }
  split_and!; [done | |].
  - intros k path secret Hin Hs Hv. rewrite <- (Hline k path secret Hs Hv).
    unfold visited_secrets in Hin. unfold global_lines, environment_lines, datacenter_lines.
    rewrite !elem_of_app in Hin. rewrite !elem_of_app.
    destruct Hin as [Hin|[Hin|Hin]].
    + right. left. right. right. right. by apply list_elem_of_fmap_2.
    + right. right. left. right. right. right. by apply list_elem_of_fmap_2.
    + destruct legacy; [by apply elem_of_nil in Hin|].
      right. right. right. rewrite !elem_of_app. right. right. right.
      by apply list_elem_of_fmap_2.
  - intros k path secret rest Hs Hv.
    change (for_range ((k, path) :: rest) (print_secret w))
      with (print_secret w k path ≫= fun _ => for_range rest (print_secret w)).
    assert (Hp : print_secret w k path =
      ([EvGetVaultSecret path None;
        EvStdout ("export " +:+ k +:+ "=" +:+ "%!q(<nil>)" +:+ " # " +:+ path +:+ newline)],
       inr tt)).
    { unfold print_secret. rewrite Hs. cbn. unfold export_secret, Data_value. by rewrite Hv. }
    by rewrite Hp.
Qed.

Lemma C10_witness :
  let w := sample_v2 in
  let f := mkFlags "dev" "us_east" "variables.yml" false in
  let config := (Unmarshal_Config w variables_v2).1 in
  (env f <> "" /\
   ReadFile w (filepath_Abs w (varsFile f)) = Some variables_v2 /\
   (load w variables_v2).2 = inr (false, config, zeroConfigV1) /\
   Forall (fetches w) (visited_secrets w false config (env f) (dc f))) /\
  (main w f).2 = 0 /\
  ("export KEY=%!q(<nil>) # /kv/dev/key" +:+ newline) ∈ stdout (Action w f).1.
Proof.
  intros w f config.
  assert (H1 : env f <> "") by done.
  assert (H2 : ReadFile w (filepath_Abs w (varsFile f)) = Some variables_v2)
    by (vm_compute; reflexivity).
  assert (H3 : (load w variables_v2).2 = inr (false, config, zeroConfigV1))
    by (vm_compute; reflexivity).
  assert (H4 : Forall (fetches w) (visited_secrets w false config (env f) (dc f)))
    by (apply Forall_fetches_check; vm_compute; reflexivity).
  split; [done|].
  destruct (C10_missing_value_is_printed w f variables_v2 false config zeroConfigV1
              H1 H2 H3 H4) as (Hexit & Hline & _).
  split; [exact Hexit|].
  apply (Hline "KEY" "/kv/dev/key" (mkSecret {[ "data" := IString "k3y" ]})).
  - apply list_elem_of_In. vm_compute. tauto.
  - vm_compute. reflexivity.
  - vm_compute. reflexivity.
Defined.


(** ** Quoting *)

Lemma chr_byte (c : ascii) : chr (byte c) = c.
Proof. unfold chr, byte. by rewrite N2Z.id, ascii_N_embedding. Qed.

Lemma append_String (c : ascii) (s t : string) : String c s +:+ t = String c (s +:+ t).
Proof. reflexivity. Qed.

Lemma append_assoc (s t u : string) : (s +:+ t) +:+ u = s +:+ t +:+ u.
Proof. induction s as [|c s IH]; [done|]. by rewrite !append_String, IH. Qed.

Lemma appendQuoted_plain_char table (c : ascii) (rest : string) :
  plain_char c = true ->
  appendQuoted table 0 (String c rest) = String c (appendQuoted table 0 rest).
Proof.
  unfold plain_char, in_range. intros Hc.
  apply andb_prop in Hc as [Hc H92]. apply andb_prop in Hc as [Hc H34].
  apply andb_prop in Hc as [Hlo Hhi].
  apply negb_true_iff in H92, H34. apply Z.leb_le in Hlo, Hhi. apply Z.eqb_neq in H92, H34.
  cbn [appendQuoted DecodeRuneInString].
  assert (Hself : (byte c <? RuneSelf) = true) by (apply Z.ltb_lt; unfold RuneSelf; lia).
  rewrite Hself.
  assert (Herr : (byte c =? RuneError) = false) by (apply Z.eqb_neq; unfold RuneError; lia).
  rewrite Herr. cbn [Nat.eqb andb Nat.sub].
  unfold appendEscapedRune, IsPrint, in_range.
  assert (H34' : (byte c =? 34) = false) by by apply Z.eqb_neq.
  assert (H92' : (byte c =? 92) = false) by by apply Z.eqb_neq.
  assert (H255 : (byte c <=? 255) = true) by (apply Z.leb_le; lia).
  assert (Hlo' : (32 <=? byte c) = true) by by apply Z.leb_le.
  assert (Hhi' : (byte c <=? 126) = true) by by apply Z.leb_le.
  rewrite H34', H92', H255, Hlo', Hhi'. cbn [orb andb].
  unfold AppendRune.
  assert (H127 : (byte c <=? 127) = true) by (apply Z.leb_le; lia).
  rewrite H127. unfold str1. rewrite chr_byte. reflexivity.
Qed.

Lemma appendQuoted_plain table (v s : string) :
  plain v = true ->
  appendQuoted table 0 (v +:+ s) = v +:+ appendQuoted table 0 s.
Proof.
  induction v as [|c v IH]; [done|]. cbn [plain]. intros Hv.
  apply andb_prop in Hv as [Hc Hv].
  by rewrite !append_String, (appendQuoted_plain_char _ _ _ Hc), (IH Hv).
Qed.

Lemma append_empty_r (s : string) : s +:+ "" = s.
Proof. induction s as [|c s IH]; [done|]. by rewrite append_String, IH. Qed.

Lemma Quote_plain table (v : string) :
  plain v = true -> Quote table v = dquote +:+ v +:+ dquote.
Proof.
  intros Hv. unfold Quote. rewrite <- (append_empty_r v) at 1.
  rewrite (appendQuoted_plain _ _ _ Hv). cbn [appendQuoted]. by rewrite append_empty_r.
Qed.

Lemma Quote_escapes table (v1 v2 c : string) :
  plain v1 = true -> plain v2 = true -> c = dquote \/ c = backslash ->
  Quote table (v1 +:+ c +:+ v2) = dquote +:+ v1 +:+ backslash +:+ c +:+ v2 +:+ dquote.
Proof.
  intros H1 H2 Hc. unfold Quote. rewrite (appendQuoted_plain _ _ _ H1).
  assert (Hesc : appendQuoted table 0 (c +:+ v2) = backslash +:+ c +:+ appendQuoted table 0 v2).
  { destruct Hc as [-> | ->]; reflexivity. }
  rewrite Hesc. rewrite <- (append_empty_r v2) at 1.
  rewrite (appendQuoted_plain _ _ _ H2). cbn [appendQuoted].
  rewrite append_empty_r. by rewrite !append_assoc.
Qed.




(** ** Iteration order *)

Lemma bucket_equiv_refl o : bucket_equiv o o.
Proof. induction o; by constructor. Qed.

Lemma bucket_equiv_app a1 a2 b1 b2 :
  bucket_equiv a1 a2 -> bucket_equiv b1 b2 -> bucket_equiv (a1 ++ b1) (a2 ++ b2).
Proof.
  intros Ha Hb. induction Ha as [|s o1 o2 Ho IH|l1 l2 o1 o2 Hl Hp Ho IH]; simpl.
  - done.
  - by constructor.
  - rewrite <- !app_assoc. by constructor.
Qed.

Lemma not_banner_perm (l1 l2 : list string) :
  l1 ≡ₚ l2 -> Forall (fun s => is_banner s = false) l1 ->
  Forall (fun s => is_banner s = false) l2.
Proof. intros Hp Hl. by rewrite <- Hp. Qed.

Lemma filter_not_banner (l : list string) :
  Forall (fun s => is_banner s = false) l -> List.filter is_banner l = [].
Proof.
  induction 1 as [|s l Hs Hl IH]; simpl; [done|]. by rewrite Hs.
Qed.

Lemma bucket_equiv_banners o1 o2 :
  bucket_equiv o1 o2 -> List.filter is_banner o1 = List.filter is_banner o2.
Proof.
  induction 1 as [|s o1 o2 Ho IH|l1 l2 o1 o2 Hl Hp Ho IH]; simpl.
  - done.
  - by rewrite IH.
  - rewrite !List.filter_app, IH, (filter_not_banner _ Hl).
    by rewrite (filter_not_banner _ (not_banner_perm _ _ Hp Hl)).
Qed.

Lemma sections_not_banner (l o : list string) :
  Forall (fun s => is_banner s = false) l ->
  sections (l ++ o) = (l ++ (sections o).1, (sections o).2).
Proof.
  induction 1 as [|s l Hs Hl IH]; simpl.
  - by destruct (sections o).
  - rewrite IH, Hs. done.
Qed.

Lemma bucket_equiv_same_buckets o1 o2 : bucket_equiv o1 o2 -> same_buckets o1 o2.
Proof.
  unfold same_buckets.
  induction 1 as [|s o1 o2 Ho [IH1 IH2]|l1 l2 o1 o2 Hl Hp Ho [IH1 IH2]].
  - simpl. split; [done | constructor].
  - simpl. destruct (sections o1) as [lines1 secs1], (sections o2) as [lines2 secs2].
    simpl in IH1, IH2. destruct (is_banner s); simpl.
    + split; [done|]. constructor; [by split | done].
    + split; [by constructor | done].
  - rewrite (sections_not_banner _ _ Hl), (sections_not_banner _ _ (not_banner_perm _ _ Hp Hl)).
    simpl. split; [by apply Permutation_app | done].
Qed.

Lemma same_run_bind {A B} (m1 m2 : M A) (k1 k2 : A -> M B) :
  same_run m1 m2 -> (forall a, same_run (k1 a) (k2 a)) -> same_run (m1 ≫= k1) (m2 ≫= k2).
Proof.
  intros [(a & H1 & H2 & Hb)|(e1 & e2 & H1 & H2 & Hc & Hnz & Hf)] Hk.
  - rewrite (bind_inr _ _ _ H1), (bind_inr _ _ _ H2). unfold same_run. cbn [fst snd].
    destruct (Hk a) as [(b & K1 & K2 & Kb)|(e1 & e2 & K1 & K2 & Kc & Knz & Kf)].
    + left. exists b. split_and!; [done | done |]. rewrite !stdout_app.
      by apply bucket_equiv_app.
    + right. exists e1, e2. split_and!; [done | done | done | done |].
      rewrite !stdout_app, !List.filter_app, Kf. by rewrite (bucket_equiv_banners _ _ Hb).
  - rewrite (bind_inl _ _ _ H1), (bind_inl _ _ _ H2). right. by exists e1, e2.
Qed.

Lemma same_run_returned {A} (m : M A) a : m.2 = inr a -> same_run m m.
Proof. intros H. left. exists a. split_and!; [done | done | apply bucket_equiv_refl]. Qed.

Lemma same_run_exit {A} (t : list Event) (e : ExitError) :
  exitCode e <> 0 -> same_run ((t, inl e) : M A) (t, inl e).
Proof. intros H. right. by exists e, e. Qed.

Lemma is_banner_export_var w kv : is_banner (export_var w kv.1 kv.2) = false.
Proof. reflexivity. Qed.

Lemma is_banner_secret_line w kv : is_banner (secret_line w kv) = false.
Proof. unfold secret_line. by destruct (GetVaultSecret w kv.2). Qed.

Lemma same_run_print_vars w l1 l2 :
  l1 ≡ₚ l2 -> same_run (for_range l1 (print_var w)) (for_range l2 (print_var w)).
Proof.
  intros Hp. left. exists tt. rewrite !for_range_print_var. cbn.
  split_and!; [done | done |]. rewrite !stdout_var_events.
  rewrite <- (app_nil_r (map _ l1)), <- (app_nil_r (map _ l2)).
  apply be_bucket; [|by apply Permutation_map | constructor].
  apply Forall_forall. intros s Hs. apply list_elem_of_In, in_map_iff in Hs as (kv & <- & _).
  apply is_banner_export_var.
Qed.

Lemma same_run_print_secrets w l1 l2 :
  l1 ≡ₚ l2 -> same_run (for_range l1 (print_secret w)) (for_range l2 (print_secret w)).
Proof.
  intros Hp.
  assert (Hnb : forall l, Forall (fun s => is_banner s = false) (map (secret_line w) l)).
  { intros l. apply Forall_forall. intros s Hs.
    apply list_elem_of_In, in_map_iff in Hs as (kv & <- & _). apply is_banner_secret_line. }
  destruct (for_range_print_secret_any w l1) as (d1 & _ & Hd1 & Ho1 & Hr1).
  destruct (for_range_print_secret_any w l2) as (d2 & _ & Hd2 & Ho2 & Hr2).
  destruct (forallb (fetchesb w) l1) eqn:Hall.
  - apply Forall_fetches_check in Hall. assert (Hall2 : Forall (fetches w) l2) by by rewrite <- Hp.
    destruct (for_range_print_secret_fetches w l1 Hall) as [R1 O1].
    destruct (for_range_print_secret_fetches w l2 Hall2) as [R2 O2].
    left. exists tt. rewrite O1, O2. split_and!; [done | done |].
    rewrite <- (app_nil_r (map _ l1)), <- (app_nil_r (map _ l2)).
    apply be_bucket; [apply Hnb | by apply Permutation_map | constructor].
  - assert (Hnot1 : ~ Forall (fetches w) l1).
    { intros HF. assert (forallb (fetchesb w) l1 = true); [|congruence].
      apply forallb_forall. intros kv Hin. apply fetchesb_fetches.
      rewrite Forall_forall in HF. by apply HF, list_elem_of_In. }
    assert (Hnot2 : ~ Forall (fetches w) l2) by by rewrite <- Hp.
    destruct Hr1 as [[_ ->]|[err1 Hr1]]; [done|].
    destruct Hr2 as [[_ ->]|[err2 Hr2]]; [done|].
    right. exists (NewExitError err1 VaultErrorCode), (NewExitError err2 VaultErrorCode).
    rewrite Ho1, Ho2, !(filter_not_banner _ (Hnb _)). done.
Qed.

Lemma same_run_emit (e : Event) : same_run (emit e) (emit e).
Proof. by apply (same_run_returned _ tt). Qed.

Section two_orders.
Context (w : World) (order1 order2 : Loop -> gmap string string -> list (string * string)).
Hypothesis order1_ok : forall l m, order1 l m ≡ₚ map_to_list m.
Hypothesis order2_ok : forall l m, order2 l m ≡ₚ map_to_list m.
Let w1 := with_range_order w order1.
Let w2 := with_range_order w order2.

Lemma orders_perm l m : range_order w1 l m ≡ₚ range_order w2 l m.
Proof. simpl. by rewrite order1_ok, order2_ok. Qed.

Lemma same_run_vars_loop l m :
  same_run (for_range (range_order w1 l m) (print_var w1))
           (for_range (range_order w2 l m) (print_var w2)).
Proof.
  change (print_var w1) with (print_var w). change (print_var w2) with (print_var w).
  apply same_run_print_vars, orders_perm.
Qed.

Lemma same_run_secrets_loop l m :
  same_run (for_range (range_order w1 l m) (print_secret w1))
           (for_range (range_order w2 l m) (print_secret w2)).
Proof.
  change (print_secret w1) with (print_secret w). change (print_secret w2) with (print_secret w).
  apply same_run_print_secrets, orders_perm.
Qed.

Lemma same_run_emission f legacy config :
  same_run (emission w1 f legacy config) (emission w2 f legacy config).
Proof.
  unfold emission, print_header, print_globals, print_environment, print_datacenter,
    Println, Printf.
  repeat first
    [ apply same_run_emit
    | apply same_run_vars_loop
    | apply same_run_secrets_loop
    | apply (same_run_returned _ tt); reflexivity
    | apply same_run_bind; [|intros ?]
    | case_decide
    | destruct legacy ].
Qed.

Lemma same_run_load yamlFile : same_run (load w1 yamlFile) (load w2 yamlFile).
Proof.
  change (load w1 yamlFile) with (load w yamlFile).
  change (load w2 yamlFile) with (load w yamlFile).
  unfold load. destruct (Unmarshal_Config w yamlFile) as [config [e|]].
  - destruct (Unmarshal_ConfigV1 w yamlFile) as [configV1 [e1|]].
    + by apply same_run_exit.
    + by eapply same_run_returned.
  - by eapply same_run_returned.
Qed.

Lemma same_run_Action f : same_run (Action w1 f) (Action w2 f).
Proof.
  unfold Action. apply same_run_bind.
  { change (enableMlock w1) with (enableMlock w). change (enableMlock w2) with (enableMlock w).
    apply (same_run_returned _ tt), enableMlock_run. }
  intros _. case_decide; [by apply same_run_exit|]. cbv zeta.
  apply same_run_bind; [apply same_run_emit|]. intros _.
  change (ReadFile w1) with (ReadFile w). change (ReadFile w2) with (ReadFile w).
  change (filepath_Abs w1) with (filepath_Abs w). change (filepath_Abs w2) with (filepath_Abs w).
  destruct (ReadFile w _) as [yamlFile|]; [|by apply same_run_exit].
  apply same_run_bind; [apply same_run_load|]. intros [[legacy config] configV1].
  apply same_run_emission.
Qed.
End two_orders.


Lemma key_order_ok l m : key_order l m ≡ₚ map_to_list m.
Proof. done. Qed.

Lemma reverse_key_order_ok l m : reverse_key_order l m ≡ₚ map_to_list m.
Proof. unfold reverse_key_order. by rewrite reverse_Permutation. Qed.



(** ** The legacy branch *)

(** The value decoded into [configV1] is never read: a world that decodes
    the legacy schema to other values, with the same errors, gives the
    same run. *)
Lemma configV1_is_not_read (w : World) (u : string -> ConfigV1 * option string) (f : Flags) :
  (forall yamlFile, (u yamlFile).2 = (Unmarshal_ConfigV1 w yamlFile).2) ->
  Action (with_Unmarshal_ConfigV1 w u) f = Action w f.
Proof.
  intros Hu. unfold Action.
  change (enableMlock (with_Unmarshal_ConfigV1 w u)) with (enableMlock w).
  change (ReadFile (with_Unmarshal_ConfigV1 w u)) with (ReadFile w).
  change (filepath_Abs (with_Unmarshal_ConfigV1 w u)) with (filepath_Abs w).
  change (emission (with_Unmarshal_ConfigV1 w u)) with (emission w).
  destruct (enableMlock w (mlockBool f)) as [t [e|[]]]; [done|]. cbn.
  case_decide; [done|]. cbn. destruct (ReadFile w _) as [yamlFile|]; [|done].
  unfold load. cbn. destruct (Unmarshal_Config w yamlFile) as [config [e|]]; [|done].
  specialize (Hu yamlFile).
  destruct (u yamlFile) as [c1 o1], (Unmarshal_ConfigV1 w yamlFile) as [c2 o2].
  cbn in Hu. subst o2. by destruct o1.
Qed.

(** The loader tries the current schema first and the legacy schema only
    after an error; two errors end the run with code 5; in the model of
    the decoder an empty file decodes without error. *)
Lemma loader_order (w : World) (yamlFile : string) :
  (forall config, Unmarshal_Config w yamlFile = (config, None) ->
     load w yamlFile = ([EvUnmarshal V2], inr (false, config, zeroConfigV1))) /\
  (forall config e configV1,
     Unmarshal_Config w yamlFile = (config, Some e) ->
     Unmarshal_ConfigV1 w yamlFile = (configV1, None) ->
     load w yamlFile = ([EvUnmarshal V2; EvUnmarshal V1], inr (true, config, configV1))) /\
  (forall config e configV1 e1,
     Unmarshal_Config w yamlFile = (config, Some e) ->
     Unmarshal_ConfigV1 w yamlFile = (configV1, Some e1) ->
     load w yamlFile =
       ([EvUnmarshal V2; EvUnmarshal V1; EvStdout (e1 +:+ newline)],
        inl (NewExitError "unable to unmarshal yaml" YamlErrorCode))).
Proof.
  split_and!; [apply load_V2 | apply load_V1 | apply load_fails].
Qed.

Lemma yaml_empty_file {S} (zero : S) (dec : yaml.decoder S) :
  yaml.Unmarshal zero dec "" = (zero, None).
Proof. reflexivity. Qed.

(** ** Legacy loads in the decoder model *)

Lemma decode_string_leaf n :
  yaml.decode_string n "" =
  (key_name n, if is_leaf n then 0%nat else 1%nat, is_leaf n).
Proof. by destruct n. Qed.

Lemma map_children_no_error {V} (zero : V) (elem : yaml.decoder V) children out :
  (yaml.decode_map_children zero elem children out).2 = 0%nat ->
  Forall (fun kv => is_leaf kv.1 = true /\ (elem kv.2 zero).1.2 = 0%nat) children.
Proof.
  revert out. induction children as [|[nk nv] children IH]; intros out; [constructor|].
  cbn [yaml.decode_map_children]. rewrite decode_string_leaf.
  destruct (is_leaf nk) eqn:Hleaf.
  - destruct (elem nv zero) as [[e ev] goodv] eqn:Hv.
    destruct (yaml.decode_map_children zero elem children _) as [out' er] eqn:Hr.
    cbn. intros Hsum. constructor.
    + cbn. rewrite Hv. cbn. split; [done | lia].
    + apply (IH (if goodv then <[key_name nk:=e]> out else out)). rewrite Hr. cbn. lia.
  - destruct (yaml.decode_map_children zero elem children out) as [out' er].
    cbn. lia.
Qed.

Lemma map_children_errors_indep {V} (zero : V) (elem : yaml.decoder V) children out out' :
  (yaml.decode_map_children zero elem children out).2 =
  (yaml.decode_map_children zero elem children out').2.
Proof.
  revert out out'. induction children as [|[nk nv] children IH]; intros out out'; [done|].
  cbn [yaml.decode_map_children]. rewrite decode_string_leaf.
  destruct (is_leaf nk).
  - destruct (elem nv zero) as [[e ev] goodv].
    specialize (IH (if goodv then <[key_name nk:=e]> out else out)
                   (if goodv then <[key_name nk:=e]> out' else out')).
    destruct (yaml.decode_map_children zero elem children
                (if goodv then <[key_name nk:=e]> out else out)) as [o1 e1].
    destruct (yaml.decode_map_children zero elem children
                (if goodv then <[key_name nk:=e]> out' else out')) as [o2 e2].
    cbn in *. lia.
  - specialize (IH out out').
    destruct (yaml.decode_map_children zero elem children out) as [o1 e1].
    destruct (yaml.decode_map_children zero elem children out') as [o2 e2].
    cbn in *. lia.
Qed.

Lemma decode_map_errors_indep {V} (zero : V) (elem : yaml.decoder V) n out out' :
  (yaml.decode_map zero elem n out).1.2 = (yaml.decode_map zero elem n out').1.2.
Proof.
  destruct n as [v| |children]; [done | done |]. cbn.
  pose proof (map_children_errors_indep zero elem children out out') as H.
  destruct (yaml.decode_map_children zero elem children out) as [o1 e1].
  destruct (yaml.decode_map_children zero elem children out') as [o2 e2]. done.
Qed.

Lemma map_children_invariant {V} (zero : V) (elem : yaml.decoder V)
    (P : V -> Prop) (Q : yaml.node -> Prop) children out :
  (forall v, Q v -> P (elem v zero).1.1) ->
  Forall (fun kv => Q kv.2) children ->
  map_Forall (fun _ => P) out ->
  map_Forall (fun _ => P) (yaml.decode_map_children zero elem children out).1.
Proof.
  intros Helem Hall. revert out. induction Hall as [|[nk nv] children Hq Hall IH]; intros out Hout.
  { done. }
  cbn [fst snd] in Hq. cbn [yaml.decode_map_children]. rewrite decode_string_leaf.
  destruct (is_leaf nk).
  - destruct (elem nv zero) as [[e ev] goodv] eqn:Hv.
    assert (Hnext : map_Forall (fun _ => P) (if goodv then <[key_name nk:=e]> out else out)).
    { destruct goodv; [|done]. apply map_Forall_insert_2; [|done].
      specialize (Helem nv Hq). by rewrite Hv in Helem. }
    specialize (IH _ Hnext).
    by destruct (yaml.decode_map_children zero elem children _) as [o1 e1].
  - specialize (IH _ Hout).
    by destruct (yaml.decode_map_children zero elem children out) as [o1 e1].
Qed.

Lemma struct_children_no_error {S} (field : string -> yaml.node -> S -> S * nat) children out :
  (forall name v o o', (field name v o).2 = (field name v o').2) ->
  (yaml.decode_struct_children field children out).2 = 0%nat ->
  Forall (fun kv => forall o, (field (key_name kv.1) kv.2 o).2 = 0%nat) children.
Proof.
  intros Hindep. revert out.
  induction children as [|[nk nv] children IH]; intros out; [constructor|].
  cbn [yaml.decode_struct_children]. rewrite decode_string_leaf.
  destruct (is_leaf nk).
  - destruct (field (key_name nk) nv out) as [out1 ev] eqn:Hf.
    destruct (yaml.decode_struct_children field children out1) as [out2 er] eqn:Hr.
    cbn. intros Hsum. constructor.
    + intros o. cbn. rewrite (Hindep _ _ o out), Hf. cbn. lia.
    + apply (IH out1). rewrite Hr. cbn. lia.
  - destruct (yaml.decode_struct_children field children out) as [out2 er].
    cbn. lia.
Qed.

Lemma struct_children_invariant {S} (field : string -> yaml.node -> S -> S * nat)
    (P : S -> Prop) (Q : string -> yaml.node -> Prop) children out :
  (forall name v o, Q name v -> P o -> P (field name v o).1) ->
  Forall (fun kv => Q (key_name kv.1) kv.2) children ->
  P out ->
  P (yaml.decode_struct_children field children out).1.
Proof.
  intros Hfield Hall. revert out. induction Hall as [|[nk nv] children Hq Hall IH]; intros out Hout.
  { done. }
  cbn [fst snd] in Hq. cbn [yaml.decode_struct_children]. rewrite decode_string_leaf.
  destruct (is_leaf nk).
  - pose proof (Hfield _ _ _ Hq Hout) as Hnext.
    destruct (field (key_name nk) nv out) as [out1 ev]. cbn [fst] in Hnext.
    specialize (IH _ Hnext).
    by destruct (yaml.decode_struct_children field children out1) as [out2 er].
  - specialize (IH _ Hout).
    by destruct (yaml.decode_struct_children field children out) as [out2 er].
Qed.

(** *** The decoders of this program *)

Lemma EnvVars_errors_indep n (out out' : gmap string string) :
  (yaml.decode_EnvVars n out).1.2 = (yaml.decode_EnvVars n out').1.2.
Proof. apply decode_map_errors_indep. Qed.

(** A datacenter value that the legacy schema accepts leaves [Vars] empty
    in the current schema. *)
Lemma flat_dc_has_no_vars (n : yaml.node) :
  (yaml.decode_EnvVars n ∅).1.2 = 0%nat ->
  dc_Vars (yaml.decode_Dc n zeroDc).1.1 = ∅.
Proof.
  destruct n as [v| |children]; [done | done |]. cbn.
  destruct (yaml.decode_map_children "" yaml.decode_string children ∅) as [m e] eqn:Hm.
  cbn. intros ->.
  assert (Hleaves : Forall (fun kv => is_leaf kv.2 = true) children).
  { pose proof (map_children_no_error "" yaml.decode_string children ∅) as H.
    rewrite Hm in H. specialize (H eq_refl).
    eapply Forall_impl; [exact H|]. intros [nk nv] [_ Hv]. cbn in *.
    by destruct nv. }
  pose proof (struct_children_invariant yaml.Dc_field (fun D => dc_Vars D = ∅)
                (fun _ v => is_leaf v = true) children zeroDc) as Hinv.
  destruct (yaml.decode_struct_children yaml.Dc_field children zeroDc) as [D e'].
  apply Hinv; [|exact Hleaves|reflexivity].
  intros name v o Hv Ho. unfold yaml.Dc_field.
  case_decide; [by destruct v|].
  case_decide; [|done].
  by destruct (yaml.decode_EnvVars v (dc_Secrets o)) as [[m' e''] g].
Qed.

Lemma legacy_dcs_no_vars (n : yaml.node) (m1 : gmap string (gmap string string))
    (M : gmap string Dc) :
  (yaml.decode_map ∅ yaml.decode_EnvVars n m1).1.2 = 0%nat ->
  no_dc_vars M ->
  no_dc_vars (yaml.decode_map zeroDc yaml.decode_Dc n M).1.1.
Proof.
  destruct n as [v| |children]; [done | intros _ _; apply map_Forall_empty |]. cbn.
  pose proof (map_children_no_error ∅ yaml.decode_EnvVars children m1) as Hflat.
  destruct (yaml.decode_map_children ∅ yaml.decode_EnvVars children m1) as [m e].
  cbn. intros -> HM. specialize (Hflat eq_refl).
  pose proof (map_children_invariant zeroDc yaml.decode_Dc (fun D => dc_Vars D = ∅)
                (fun v => (yaml.decode_EnvVars v ∅).1.2 = 0%nat) children M) as Hinv.
  destruct (yaml.decode_map_children zeroDc yaml.decode_Dc children M) as [M' e'].
  apply Hinv; [apply flat_dc_has_no_vars | | exact HM].
  eapply Forall_impl; [exact Hflat|]. by intros kv [_ Hv].
Qed.

Lemma EnvironmentV1_field_errors_indep name v o o' :
  (yaml.EnvironmentV1_field name v o).2 = (yaml.EnvironmentV1_field name v o').2.
Proof.
  unfold yaml.EnvironmentV1_field. repeat case_decide; [| | |done].
  - pose proof (EnvVars_errors_indep v (envV1_Vars o) (envV1_Vars o')) as Herr.
    destruct (yaml.decode_EnvVars v (envV1_Vars o)) as [[m e] g].
    by destruct (yaml.decode_EnvVars v (envV1_Vars o')) as [[m' e'] g'].
  - pose proof (EnvVars_errors_indep v (envV1_Secrets o) (envV1_Secrets o')) as Herr.
    destruct (yaml.decode_EnvVars v (envV1_Secrets o)) as [[m e] g].
    by destruct (yaml.decode_EnvVars v (envV1_Secrets o')) as [[m' e'] g'].
  - pose proof (decode_map_errors_indep ∅ yaml.decode_EnvVars v (envV1_Dcs o) (envV1_Dcs o'))
      as Herr.
    destruct (yaml.decode_map ∅ yaml.decode_EnvVars v (envV1_Dcs o)) as [[m e] g].
    by destruct (yaml.decode_map ∅ yaml.decode_EnvVars v (envV1_Dcs o')) as [[m' e'] g'].
Qed.

Lemma legacy_environment_no_vars (n : yaml.node) (o1 : EnvironmentV1) (E : Environment) :
  (yaml.decode_EnvironmentV1 n o1).1.2 = 0%nat ->
  no_dc_vars (env_Dcs E) ->
  no_dc_vars (env_Dcs (yaml.decode_Environment n E).1.1).
Proof.
  destruct n as [v| |children]; [done | intros _ _; apply map_Forall_empty |]. cbn.
  pose proof (struct_children_no_error yaml.EnvironmentV1_field children o1
                EnvironmentV1_field_errors_indep) as Hno.
  destruct (yaml.decode_struct_children yaml.EnvironmentV1_field children o1) as [o1' e].
  cbn. intros -> HE. specialize (Hno eq_refl).
  pose proof (struct_children_invariant yaml.Environment_field
                (fun E => no_dc_vars (env_Dcs E))
                (fun name v => forall o, (yaml.EnvironmentV1_field name v o).2 = 0%nat)
                children E) as Hinv.
  destruct (yaml.decode_struct_children yaml.Environment_field children E) as [E' e'].
  apply Hinv; [|exact Hno|exact HE].
  intros name v o Hq Ho. specialize (Hq zeroEnvironmentV1).
  unfold yaml.Environment_field, yaml.EnvironmentV1_field in *.
  case_decide; [by destruct (yaml.decode_EnvVars v (env_Vars o)) as [[m e''] g]|].
  case_decide; [by destruct (yaml.decode_EnvVars v (env_Secrets o)) as [[m e''] g]|].
  case_decide; [|done].
  pose proof (legacy_dcs_no_vars v ∅ (env_Dcs o)) as Hdcs.
  destruct (yaml.decode_map ∅ yaml.decode_EnvVars v _) as [[m1 e1] g1].
  destruct (yaml.decode_map zeroDc yaml.decode_Dc v (env_Dcs o)) as [[M e2] g2].
  cbn in *. by apply Hdcs.
Qed.

Lemma ConfigV1_field_errors_indep name v o o' :
  (yaml.ConfigV1_field name v o).2 = (yaml.ConfigV1_field name v o').2.
Proof.
  unfold yaml.ConfigV1_field. repeat case_decide; [| | |done].
  - pose proof (EnvVars_errors_indep v (VarsV1 o) (VarsV1 o')) as Herr.
    destruct (yaml.decode_EnvVars v (VarsV1 o)) as [[m e] g].
    by destruct (yaml.decode_EnvVars v (VarsV1 o')) as [[m' e'] g'].
  - pose proof (EnvVars_errors_indep v (SecretsV1 o) (SecretsV1 o')) as Herr.
    destruct (yaml.decode_EnvVars v (SecretsV1 o)) as [[m e] g].
    by destruct (yaml.decode_EnvVars v (SecretsV1 o')) as [[m' e'] g'].
  - pose proof (decode_map_errors_indep zeroEnvironmentV1 yaml.decode_EnvironmentV1 v
                  (EnvironmentsV1 o) (EnvironmentsV1 o')) as Herr.
    destruct (yaml.decode_map zeroEnvironmentV1 yaml.decode_EnvironmentV1 v (EnvironmentsV1 o))
      as [[m e] g].
    by destruct (yaml.decode_map zeroEnvironmentV1 yaml.decode_EnvironmentV1 v
                   (EnvironmentsV1 o')) as [[m' e'] g'].
Qed.

Lemma legacy_environments_no_vars (n : yaml.node) (m1 : gmap string EnvironmentV1)
    (M : gmap string Environment) :
  (yaml.decode_map zeroEnvironmentV1 yaml.decode_EnvironmentV1 n m1).1.2 = 0%nat ->
  map_Forall (fun _ E => no_dc_vars (env_Dcs E)) M ->
  map_Forall (fun _ E => no_dc_vars (env_Dcs E))
    (yaml.decode_map zeroEnvironment yaml.decode_Environment n M).1.1.
Proof.
  destruct n as [v| |children]; [done | intros _ _; apply map_Forall_empty |]. cbn.
  pose proof (map_children_no_error zeroEnvironmentV1 yaml.decode_EnvironmentV1 children m1)
    as Hno.
  destruct (yaml.decode_map_children zeroEnvironmentV1 yaml.decode_EnvironmentV1 children m1)
    as [m e].
  cbn. intros -> HM. specialize (Hno eq_refl).
  pose proof (map_children_invariant zeroEnvironment yaml.decode_Environment
                (fun E => no_dc_vars (env_Dcs E))
                (fun v => (yaml.decode_EnvironmentV1 v zeroEnvironmentV1).1.2 = 0%nat)
                children M) as Hinv.
  destruct (yaml.decode_map_children zeroEnvironment yaml.decode_Environment children M)
    as [M' e'].
  apply Hinv; [| |exact HM].
  - intros v Hv. apply (legacy_environment_no_vars v zeroEnvironmentV1); [done|].
    apply map_Forall_empty.
  - eapply Forall_impl; [exact Hno|]. by intros kv [_ Hv].
Qed.

(** When the legacy decode of a document reports no error, the current
    decode of the same document leaves every datacenter without
    variables. *)
Lemma legacy_decode_has_no_dc_vars (root : yaml.node) (e d : string) :
  (yaml.decode_ConfigV1 root zeroConfigV1).1.2 = 0%nat ->
  dc_Vars (index zeroDc (env_Dcs (index zeroEnvironment
     (Environments (yaml.decode_Config root zeroConfig).1.1) e)) d) = ∅.
Proof.
  intros HV1.
  assert (Hall : map_Forall (fun _ E => no_dc_vars (env_Dcs E))
                   (Environments (yaml.decode_Config root zeroConfig).1.1)).
  { destruct root as [v| |children]; [done | apply map_Forall_empty |]. cbn in *.
    pose proof (struct_children_no_error yaml.ConfigV1_field children zeroConfigV1
                  ConfigV1_field_errors_indep) as Hno.
    destruct (yaml.decode_struct_children yaml.ConfigV1_field children zeroConfigV1) as [o1 e1].
    cbn in HV1. subst e1. specialize (Hno eq_refl).
    pose proof (struct_children_invariant yaml.Config_field
                  (fun c => map_Forall (fun _ E => no_dc_vars (env_Dcs E)) (Environments c))
                  (fun name v => forall o, (yaml.ConfigV1_field name v o).2 = 0%nat)
                  children zeroConfig) as Hinv.
    destruct (yaml.decode_struct_children yaml.Config_field children zeroConfig) as [c e2].
    apply Hinv; [|exact Hno|apply map_Forall_empty].
    intros name v o Hq Ho. specialize (Hq zeroConfigV1).
    unfold yaml.Config_field, yaml.ConfigV1_field in *.
    case_decide; [by destruct (yaml.decode_EnvVars v (Vars o)) as [[m e''] g]|].
    case_decide; [by destruct (yaml.decode_EnvVars v (Secrets_ o)) as [[m e''] g]|].
    case_decide; [|done].
    pose proof (legacy_environments_no_vars v ∅ (Environments o)) as Henvs.
    destruct (yaml.decode_map zeroEnvironmentV1 yaml.decode_EnvironmentV1 v _) as [[m1 e3] g1].
    destruct (yaml.decode_map zeroEnvironment yaml.decode_Environment v (Environments o))
      as [[M e4] g2].
    cbn in *. by apply Henvs. }
  unfold index.
  destruct (Environments (yaml.decode_Config root zeroConfig).1.1 !! e) as [E|] eqn:HE;
    [|done].
  cbn. destruct (env_Dcs E !! d) as [D|] eqn:HD; [|done].
  cbn. exact (Hall e E HE d D HD).
Qed.

(** In the decoder model no legacy run prints a datacenter variable: the
    datacenter part of such a run is its banner, or nothing. *)
Lemma legacy_run_prints_no_datacenter_vars files store yamlFile config configV1 e d :
  (load (sample_world files store) yamlFile).2 = inr (true, config, configV1) ->
  datacenter_lines (sample_world files store) true config e d =
    if decide (d = "") then []
    else ["# Datacenter (" +:+ d +:+ ") Specific Vars:" +:+ newline].
Proof.
  unfold load. cbn. unfold yaml.Unmarshal.
  destruct (yaml.parse yamlFile) as [| |root]; [done | done |].
  pose proof (legacy_decode_has_no_dc_vars root e d) as Hempty.
  destruct (yaml.decode_Config root zeroConfig) as [[c n] g].
  destruct (yaml.decode_ConfigV1 root zeroConfigV1) as [[c1 n1] g1].
  destruct n as [|n]; [done|]. destruct n1 as [|n1]; [|done].
  cbn. intros [= <- <-]. unfold datacenter_lines, var_lines. cbn in *.
  rewrite (Hempty eq_refl). by rewrite map_to_list_empty.
Qed.

(** C1: the failing run.  The document decodes with an error in the
    current schema and without one in the legacy schema, where the
    datacenter us_east has the variables REGION and vars; the run is a
    legacy run, prints the banner with the datacenter name and no
    datacenter-secrets banner, and prints none of the two variables. *)
Theorem C1_legacy_datacenter_vars_not_printed :
  let f := mkFlags "dev" "us_east" "variables.yml" false in
  (Unmarshal_Config sample_files variables_v1).2 = Some "yaml: unmarshal errors" /\
  (Unmarshal_ConfigV1 sample_files variables_v1).2 = None /\
  (let us_east :=
     index ∅ (envV1_Dcs (index zeroEnvironmentV1
       (EnvironmentsV1 (Unmarshal_ConfigV1 sample_files variables_v1).1) "dev")) "us_east" in
   us_east !! "REGION" = Some "us-east-1" /\ us_east !! "vars" = Some "x") /\
  main sample_files f =
    ([EvReadFile "/work/variables.yml"; EvUnmarshal V2; EvUnmarshal V1;
      EvStdout ("# Setting Variables for:" +:+ newline);
      EvStdout ("# Environment: dev" +:+ newline);
      EvStdout ("# Datacenter: us_east" +:+ newline);
      EvStdout ("# Global Vars:" +:+ newline);
      EvStdout ("# Global Secrets:" +:+ newline);
      EvStdout ("# Environment (dev) Vars:" +:+ newline);
      EvStdout ("# Environment (dev) Secrets:" +:+ newline);
      EvStdout ("# Datacenter (us_east) Specific Vars:" +:+ newline)], 0).
Proof. intros f. cbv zeta. split_and!; vm_compute; reflexivity. Qed.

(** C4: the failing run.  The current-schema decode is tried first and
    reports an error, the legacy decode follows and succeeds; its result
    holds the datacenter variables ZONE and secrets, and the run, which
    goes on in legacy mode, prints what the first decode left in [config]:
    the global and environment variables, and no datacenter variable. *)
Theorem C4_legacy_result_not_used :
  let f := mkFlags "qa" "west" "qa.yml" false in
  (Unmarshal_Config sample_files variables_v1_qa).2 = Some "yaml: unmarshal errors" /\
  (Unmarshal_ConfigV1 sample_files variables_v1_qa).2 = None /\
  (let west :=
     index ∅ (envV1_Dcs (index zeroEnvironmentV1
       (EnvironmentsV1 (Unmarshal_ConfigV1 sample_files variables_v1_qa).1) "qa")) "west" in
   west !! "ZONE" = Some "w1" /\ west !! "secrets" = Some "none") /\
  main sample_files f =
    ([EvReadFile "/work/qa.yml"; EvUnmarshal V2; EvUnmarshal V1;
      EvStdout ("# Setting Variables for:" +:+ newline);
      EvStdout ("# Environment: qa" +:+ newline);
      EvStdout ("# Datacenter: west" +:+ newline);
      EvStdout ("# Global Vars:" +:+ newline);
      EvStdout ("export A=" +:+ dquote +:+ "b" +:+ dquote +:+ newline);
      EvStdout ("# Global Secrets:" +:+ newline);
      EvStdout ("# Environment (qa) Vars:" +:+ newline);
      EvStdout ("export TIER=" +:+ dquote +:+ "qa" +:+ dquote +:+ newline);
      EvStdout ("# Environment (qa) Secrets:" +:+ newline);
      EvStdout ("# Datacenter (west) Specific Vars:" +:+ newline)], 0) /\
  main (with_Unmarshal_ConfigV1 sample_files (fun _ => (zeroConfigV1, None))) f =
    main sample_files f.
Proof. intros f. cbv zeta. split_and!; vm_compute; reflexivity. Qed.


Lemma var_lines_not_banner w l m : Forall (fun s => is_banner s = false) (var_lines w l m).
Proof.
  apply Forall_forall. intros s Hs. apply list_elem_of_In, in_map_iff in Hs as (kv & <- & _).
  apply is_banner_export_var.
Qed.



(** ** Further properties of [app.Action] *)

Lemma exits_within_bind {A B} (P : ExitError -> Prop) (m : M A) (k : A -> M B) :
  exits_within P m -> (forall a, exits_within P (k a)) -> exits_within P (m ≫= k).
Proof.
  intros Hm Hk e. destruct (m.2) as [e'|a] eqn:Hr.
  - rewrite (bind_inl _ _ _ Hr). cbn. intros [= <-]. by apply Hm.
  - rewrite (bind_inr _ _ _ Hr). cbn. apply Hk.
Qed.

Lemma exits_within_returned {A} (P : ExitError -> Prop) (m : M A) a :
  m.2 = inr a -> exits_within P m.
Proof. intros Hr e He. congruence. Qed.

Lemma exits_within_for_range (P : ExitError -> Prop) l (body : string -> string -> M unit) :
  (forall k v, exits_within P (body k v)) -> exits_within P (for_range l body).
Proof.
  intros Hb. induction l as [|[k v] l IH]; [done|].
  apply exits_within_bind; [apply Hb | by intros _].
Qed.

Lemma exits_within_impl {A} (P Q : ExitError -> Prop) (m : M A) :
  (forall e, P e -> Q e) -> exits_within P m -> exits_within Q m.
Proof. intros HPQ Hm e He. by apply HPQ, Hm. Qed.

Lemma GetVaultSecret_message w path err :
  GetVaultSecret w path = inl err -> vault_message w err.
Proof.
  unfold GetVaultSecret, vault_message.
  destruct (vault_NewClient w) as [e|] eqn:Hc.
  { intros [= <-]. left. by exists e. }
  destruct (vault_Read w path) as [e| |s] eqn:Hr; [| |done].
  - intros [= <-]. right. left. by exists path, e.
  - intros [= <-]. right. right. by exists path.
Qed.

Lemma exits_within_print_secret w k path : exits_within (vault_exit w) (print_secret w k path).
Proof.
  unfold print_secret. destruct (GetVaultSecret w path) as [err|secret] eqn:Hs.
  - intros e [= <-]. exists err. split; [by eapply GetVaultSecret_message | done].
  - by apply (exits_within_returned _ _ tt).
Qed.

Lemma exits_within_print_var (P : ExitError -> Prop) w k v : exits_within P (print_var w k v).
Proof. by apply (exits_within_returned _ _ tt). Qed.

Lemma exits_within_emit (P : ExitError -> Prop) e : exits_within P (emit e).
Proof. by apply (exits_within_returned _ _ tt). Qed.

Lemma exits_within_emission w f legacy config :
  exits_within (vault_exit w) (emission w f legacy config).
Proof.
  unfold emission, print_header, print_globals, print_environment, print_datacenter,
    Println, Printf.
  repeat first
    [ apply exits_within_emit
    | apply exits_within_for_range; intros;
      first [apply exits_within_print_var | apply exits_within_print_secret]
    | apply (exits_within_returned _ _ tt); reflexivity
    | apply exits_within_bind; [|intros ?]
    | case_decide
    | destruct legacy ].
Qed.

Lemma exits_within_Action w f : exits_within (known_exit w f) (Action w f).
Proof.
  unfold Action. apply exits_within_bind.
  { apply (exits_within_returned _ _ tt), enableMlock_run. }
  intros _. case_decide.
  { intros e [= <-]. by left. }
  cbv zeta. apply exits_within_bind; [apply exits_within_emit|]. intros _.
  destruct (ReadFile w _) as [yamlFile|].
  2: { intros e [= <-]. right. by left. }
  apply exits_within_bind.
  - unfold load. apply exits_within_bind; [apply exits_within_emit|]. intros _.
    destruct (Unmarshal_Config w yamlFile) as [config [e0|]];
      [|by apply (exits_within_returned _ _ (false, config, zeroConfigV1))].
    apply exits_within_bind; [apply exits_within_emit|]. intros _.
    destruct (Unmarshal_ConfigV1 w yamlFile) as [configV1 [e1|]];
      [|by apply (exits_within_returned _ _ (true, config, configV1))].
    intros e [= <-]. right. right. by left.
  - intros [[legacy config] configV1].
    eapply exits_within_impl; [|apply exits_within_emission].
    intros e He. right. right. by right.
Qed.

Lemma stdout_main w f : stdout (main w f).1 = stdout (Action w f).1.
Proof.
  unfold main. destruct (Action w f) as [t [e|[]]]; [|done]. cbn.
  rewrite stdout_app. case_decide; cbn; by rewrite app_nil_r.
Qed.

(** X3: the action returns nil or one of four exit errors: the missing
    environment (code 2), the unreadable file (code 4, with the file name
    as it was given), the document that decodes in neither schema (code
    5), or a failing fetch (code 6, with one of the three messages of
    GetVaultSecret).  The exit status is 0 exactly when the action
    returned nil, and the message of an exit error never reaches standard
    output. *)
Theorem X3_exit_errors (w : World) (f : Flags) :
  (forall e, (Action w f).2 = inl e -> known_exit w f e) /\
  ((main w f).2 = 0 <-> (Action w f).2 = inr tt) /\
  ((main w f).2 = 0 \/ (main w f).2 = 2 \/ (main w f).2 = 4 \/
   (main w f).2 = 5 \/ (main w f).2 = 6) /\
  stdout (main w f).1 = stdout (Action w f).1.
Proof.
  pose proof (exits_within_Action w f) as Hk. unfold exits_within in Hk.
  split_and!; [exact Hk | | | apply stdout_main].
  - rewrite main_exit_code. destruct ((Action w f).2) as [e|[]] eqn:Hr; [|done].
    cbn. split; [|done]. intros Hc.
    destruct (Hk e eq_refl) as [->|[->|[->|(msg & _ & ->)]]]; done.
  - rewrite main_exit_code. destruct ((Action w f).2) as [e|[]] eqn:Hr; [|by left].
    destruct (Hk e eq_refl) as [->|[->|[->|(msg & _ & ->)]]]; cbn; tauto.
Qed.

(** X1: when the file cannot be read, the action leaves with code 4 and
    the message "unable to read variable file" followed by the file name
    as given by the flag; the path handed to the file system is the
    absolute one.  Nothing is printed, nothing is decoded and no secret is
    fetched. *)
Theorem X1_unreadable_file (w : World) (f : Flags) :
  env f <> "" ->
  ReadFile w (filepath_Abs w (varsFile f)) = None ->
  Action w f =
    ((enableMlock w (mlockBool f)).1 ++ [EvReadFile (filepath_Abs w (varsFile f))],
     inl (NewExitError ("unable to read variable file " +:+ varsFile f) FileErrorCode)) /\
  (main w f).2 = 4 /\
  stdout (Action w f).1 = [] /\
  fetched_paths (Action w f).1 = [] /\
  (forall s, EvUnmarshal s ∉ (Action w f).1).
Proof.
  intros Henv Hfile.
  assert (Heq : Action w f =
    ((enableMlock w (mlockBool f)).1 ++ [EvReadFile (filepath_Abs w (varsFile f))],
     inl (NewExitError ("unable to read variable file " +:+ varsFile f) FileErrorCode))).
  { unfold Action. destruct (enableMlock_run w (mlockBool f)) as [Hm _].
    rewrite (bind_inr _ _ tt Hm). case_decide; [done|]. cbv zeta.
    by rewrite bind_emit, Hfile. }
  rewrite main_exit_code, Heq. cbn [fst snd exit_code exitCode].
  unfold enableMlock. split_and!; [done | done | | |].
  - by destruct (mlockBool f); [destruct (mlockall w)|].
  - by destruct (mlockBool f); [destruct (mlockall w)|].
  - intros s Hin. destruct (mlockBool f); [destruct (mlockall w)|]; cbn in Hin;
      repeat (apply elem_of_cons in Hin as [Hin|Hin]; [discriminate|]);
      by apply elem_of_nil in Hin.
Qed.

Lemma X1_witness :
  let f := mkFlags "dev" "" "missing.yml" false in
  (env f <> "" /\ ReadFile sample_v2 (filepath_Abs sample_v2 (varsFile f)) = None) /\
  Action sample_v2 f =
    ([EvReadFile "/work/missing.yml"],
     inl (NewExitError "unable to read variable file missing.yml" 4)).
Proof.
  intros f.
  assert (H1 : env f <> "") by done.
  assert (H2 : ReadFile sample_v2 (filepath_Abs sample_v2 (varsFile f)) = None)
    by (vm_compute; reflexivity).
  split; [done|].
  destruct (X1_unreadable_file sample_v2 f H1 H2) as (Heq & _). exact Heq.
Defined.

(** X2: when the document decodes in neither schema, the error of the
    second decode (the legacy one) is printed on standard output, followed
    by a newline; no banner is printed and no secret is fetched, and the
    action leaves with code 5 and the message "unable to unmarshal yaml".
    The current schema is tried before the legacy one. *)
Theorem X2_document_in_neither_schema (w : World) (f : Flags) (yamlFile : string)
    (config : Config) (configV1 : ConfigV1) (e e1 : string) :
  env f <> "" ->
  ReadFile w (filepath_Abs w (varsFile f)) = Some yamlFile ->
  Unmarshal_Config w yamlFile = (config, Some e) ->
  Unmarshal_ConfigV1 w yamlFile = (configV1, Some e1) ->
  Action w f =
    ((enableMlock w (mlockBool f)).1 ++
     [EvReadFile (filepath_Abs w (varsFile f)); EvUnmarshal V2; EvUnmarshal V1;
      EvStdout (e1 +:+ newline)],
     inl (NewExitError "unable to unmarshal yaml" YamlErrorCode)) /\
  (main w f).2 = 5 /\
  stdout (Action w f).1 = [e1 +:+ newline] /\
  fetched_paths (Action w f).1 = [].
Proof.
  intros Henv Hfile Hdec Hdec1.
  assert (Heq : Action w f =
    ((enableMlock w (mlockBool f)).1 ++
     [EvReadFile (filepath_Abs w (varsFile f)); EvUnmarshal V2; EvUnmarshal V1;
      EvStdout (e1 +:+ newline)],
     inl (NewExitError "unable to unmarshal yaml" YamlErrorCode))).
  { unfold Action. destruct (enableMlock_run w (mlockBool f)) as [Hm _].
    rewrite (bind_inr _ _ tt Hm). case_decide; [done|]. cbv zeta.
    rewrite bind_emit, Hfile, (load_fails _ _ _ _ _ _ Hdec Hdec1). done. }
  rewrite main_exit_code, Heq. cbn [fst snd exit_code exitCode].
  unfold enableMlock. split_and!; [done | done | |].
  - by destruct (mlockBool f); [destruct (mlockall w)|].
  - by destruct (mlockBool f); [destruct (mlockall w)|].
Qed.

Lemma X2_witness :
  let f := mkFlags "dev" "" "variables.yml" false in
  (env f <> "" /\
   ReadFile sample_garbage (filepath_Abs sample_garbage (varsFile f)) = Some "}{" /\
   Unmarshal_Config sample_garbage "}{" = (zeroConfig, Some "yaml: syntax error") /\
   Unmarshal_ConfigV1 sample_garbage "}{" = (zeroConfigV1, Some "yaml: syntax error")) /\
  (main sample_garbage f).2 = 5 /\
  stdout (Action sample_garbage f).1 = ["yaml: syntax error" +:+ newline].
Proof.
  intros f.
  assert (H1 : env f <> "") by done.
  assert (H2 : ReadFile sample_garbage (filepath_Abs sample_garbage (varsFile f)) = Some "}{")
    by (vm_compute; reflexivity).
  assert (H3 : Unmarshal_Config sample_garbage "}{" = (zeroConfig, Some "yaml: syntax error"))
    by (vm_compute; reflexivity).
  assert (H4 : Unmarshal_ConfigV1 sample_garbage "}{" = (zeroConfigV1, Some "yaml: syntax error"))
    by (vm_compute; reflexivity).
  split; [done|].
  destruct (X2_document_in_neither_schema sample_garbage f "}{" zeroConfig zeroConfigV1
              "yaml: syntax error" "yaml: syntax error" H1 H2 H3 H4) as (_ & Hx & Ho & _).
  split; [exact Hx | exact Ho].
Defined.

(** ** The calls of [GetVaultSecret] *)

Lemma fetched_paths_app t1 t2 :
  fetched_paths (t1 ++ t2) = fetched_paths t1 ++ fetched_paths t2.
Proof. unfold fetched_paths. apply omap_app. Qed.

Lemma fetched_paths_stdout (l : list string) : fetched_paths (map EvStdout l) = [].
Proof. by induction l. Qed.

Lemma fetches_within_bind {A B} (m : M A) (k : A -> M B) l1 l2 :
  fetches_within m l1 -> (forall a, fetches_within (k a) l2) ->
  fetches_within (m ≫= k) (l1 ++ l2).
Proof.
  intros [Hp Hr] Hk. destruct (m.2) as [e|a] eqn:Hm.
  - rewrite (bind_inl _ _ _ Hm). split; cbn; [by apply prefix_app_r | done].
  - destruct (Hk a) as [Hkp Hkr]. rewrite (bind_inr _ _ _ Hm). split; cbn.
    + rewrite fetched_paths_app, (Hr a eq_refl). by apply prefix_app.
    + intros b Hb. by rewrite fetched_paths_app, (Hr a eq_refl), (Hkr b Hb).
Qed.

Lemma fetches_within_emit e :
  fetched_paths [e] = [] -> fetches_within (emit e) [].
Proof.
  intros He. split; [|intros _ _; exact He].
  change (emit e).1 with [e]. by rewrite He.
Qed.

Lemma fetches_within_print_secret w k path : fetches_within (print_secret w k path) [path].
Proof. unfold print_secret. by destruct (GetVaultSecret w path). Qed.

Lemma fetches_within_secrets w l : fetches_within (for_range l (print_secret w)) (map snd l).
Proof.
  induction l as [|[k path] l IH]; [done|].
  apply (fetches_within_bind _ _ [path] (map snd l)); [|by intros _].
  apply fetches_within_print_secret.
Qed.

Lemma fetches_within_vars w l : fetches_within (for_range l (print_var w)) [].
Proof.
  rewrite for_range_print_var. split; cbn; [|intros _ _]; by induction l.
Qed.

Lemma fetches_within_globals w config :
  fetches_within (print_globals w config)
    (map snd (range_order w GlobalSecrets (Secrets_ config))).
Proof.
  unfold print_globals, Println.
  apply (fetches_within_bind _ _ []); [by apply fetches_within_emit|]. intros _.
  apply (fetches_within_bind _ _ []); [apply fetches_within_vars|]. intros _.
  apply (fetches_within_bind _ _ []); [by apply fetches_within_emit|]. intros _.
  apply fetches_within_secrets.
Qed.

Lemma fetches_within_environment w config e :
  fetches_within (print_environment w config e)
    (map snd (range_order w EnvironmentSecrets
       (env_Secrets (index zeroEnvironment (Environments config) e)))).
Proof.
  unfold print_environment, Printf.
  apply (fetches_within_bind _ _ []); [by apply fetches_within_emit|]. intros _.
  apply (fetches_within_bind _ _ []); [apply fetches_within_vars|]. intros _.
  apply (fetches_within_bind _ _ []); [by apply fetches_within_emit|]. intros _.
  apply fetches_within_secrets.
Qed.

Lemma fetches_within_datacenter w legacy config e d :
  fetches_within (print_datacenter w legacy config e d)
    (map snd (if legacy then []
              else range_order w DatacenterSecrets
                     (dc_Secrets (index zeroDc
                        (env_Dcs (index zeroEnvironment (Environments config) e)) d)))).
Proof.
  unfold print_datacenter, Printf. destruct legacy.
  - case_decide; [done|].
    apply (fetches_within_bind _ _ []); [by apply fetches_within_emit|]. intros _.
    apply fetches_within_vars.
  - apply (fetches_within_bind _ _ []); [by apply fetches_within_emit|]. intros _.
    apply (fetches_within_bind _ _ []); [apply fetches_within_vars|]. intros _.
    apply (fetches_within_bind _ _ []); [by apply fetches_within_emit|]. intros _.
    apply fetches_within_secrets.
Qed.

Lemma fetches_within_emission w f legacy config :
  fetches_within (emission w f legacy config)
    (map snd (visited_secrets w legacy config (env f) (dc f))).
Proof.
  unfold emission, visited_secrets. rewrite !map_app.
  apply (fetches_within_bind _ _ []).
  { rewrite print_header_run. unfold fetches_within. cbn [fst snd].
    by rewrite fetched_paths_stdout. }
  intros _. apply fetches_within_bind; [apply fetches_within_globals|]. intros _.
  apply fetches_within_bind; [apply fetches_within_environment|]. intros _.
  apply fetches_within_datacenter.
Qed.

Lemma Action_loaded_trace w f yamlFile legacy config configV1 :
  env f <> "" ->
  ReadFile w (filepath_Abs w (varsFile f)) = Some yamlFile ->
  (load w yamlFile).2 = inr (legacy, config, configV1) ->
  Action w f =
    ((enableMlock w (mlockBool f)).1 ++ EvReadFile (filepath_Abs w (varsFile f)) ::
     (load w yamlFile).1 ++ (emission w f legacy config).1,
     (emission w f legacy config).2).
Proof.
  intros Henv Hfile Hload. unfold Action.
  destruct (enableMlock_run w (mlockBool f)) as [Hm Hmo].
  rewrite (bind_inr (enableMlock w (mlockBool f)) _ tt Hm).
  case_decide; [done|]. cbv zeta. rewrite bind_emit, Hfile.
  by rewrite (bind_inr (load w yamlFile) _ _ Hload).
Qed.

Lemma load_fetches_nothing w yamlFile : fetched_paths (load w yamlFile).1 = [].
Proof.
  unfold load. destruct (Unmarshal_Config w yamlFile) as [config [e|]]; [|done].
  by destruct (Unmarshal_ConfigV1 w yamlFile) as [configV1 [e1|]].
Qed.

Lemma enableMlock_fetches_nothing w b : fetched_paths (enableMlock w b).1 = [].
Proof. unfold enableMlock. by destruct b; [destruct (mlockall w)|]. Qed.

(** X4: once the document is loaded, GetVaultSecret is called on the
    paths of the global secrets, then of the environment secrets, then (not
    in legacy mode) of the datacenter secrets, each in the order of its
    loop, once per entry, and on nothing else; the calls stop at the first
    failure, and a run that ends with code 0 has made all of them. *)
Theorem X4_fetches_follow_the_buckets (w : World) (f : Flags) (yamlFile : string)
    (legacy : bool) (config : Config) (configV1 : ConfigV1) :
  env f <> "" ->
  ReadFile w (filepath_Abs w (varsFile f)) = Some yamlFile ->
  (load w yamlFile).2 = inr (legacy, config, configV1) ->
  fetched_paths (Action w f).1 `prefix_of`
    map snd (visited_secrets w legacy config (env f) (dc f)) /\
  ((main w f).2 = 0 ->
   fetched_paths (Action w f).1 = map snd (visited_secrets w legacy config (env f) (dc f))).
Proof.
  intros Henv Hfile Hload.
  destruct (fetches_within_emission w f legacy config) as [Hp Hr].
  pose proof (exits_within_emission w f legacy config) as Hx.
  rewrite main_exit_code, (Action_loaded_trace w f yamlFile legacy config configV1 Henv Hfile Hload).
  cbn [fst snd]. rewrite fetched_paths_app, enableMlock_fetches_nothing.
  change (EvReadFile ?p :: ?t) with ([EvReadFile p] ++ t).
  rewrite !fetched_paths_app, load_fetches_nothing. cbn [app fetched_paths omap].
  split; [exact Hp|].
  destruct ((emission w f legacy config).2) as [e|[]] eqn:He; [|intros _; by apply (Hr tt)].
  destruct (Hx e He) as (msg & _ & ->). done.
Qed.

Lemma X4_witness :
  let f := mkFlags "dev" "us_east" "variables.yml" false in
  let config := (Unmarshal_Config sample_v2 variables_v2).1 in
  (env f <> "" /\
   ReadFile sample_v2 (filepath_Abs sample_v2 (varsFile f)) = Some variables_v2 /\
   (load sample_v2 variables_v2).2 = inr (false, config, zeroConfigV1)) /\
  fetched_paths (Action sample_v2 f).1 =
    ["/kv/app/tok"; "/kv/dev/key"; "/kv/dev/us_east/cert"].
Proof.
  intros f config.
  assert (H1 : env f <> "") by done.
  assert (H2 : ReadFile sample_v2 (filepath_Abs sample_v2 (varsFile f)) = Some variables_v2)
    by (vm_compute; reflexivity).
  assert (H3 : (load sample_v2 variables_v2).2 = inr (false, config, zeroConfigV1))
    by (vm_compute; reflexivity).
  split; [done|].
  destruct (X4_fetches_follow_the_buckets sample_v2 f variables_v2 false config zeroConfigV1
              H1 H2 H3) as [_ Hall].
  rewrite Hall; [|vm_compute; reflexivity]. vm_compute. reflexivity.
Defined.

(** ** Success, and what is printed whatever the store answers *)

Lemma bind_returned_inv {A B} (m : M A) (k : A -> M B) b :
  (m ≫= k).2 = inr b -> exists a, m.2 = inr a /\ (k a).2 = inr b.
Proof.
  destruct (m.2) as [e|a] eqn:Hm.
  - by rewrite (bind_inl _ _ _ Hm).
  - rewrite (bind_inr _ _ _ Hm). by exists a.
Qed.

Lemma for_range_returned_fetches w l :
  (for_range l (print_secret w)).2 = inr tt -> Forall (fetches w) l.
Proof.
  intros Hr. destruct (for_range_print_secret_any w l) as (d & _ & Hd & _ & [[_ ->]|[err He]]);
    [done | congruence].
Qed.

Lemma emission_returned_fetches w f legacy config :
  (emission w f legacy config).2 = inr tt ->
  Forall (fetches w) (visited_secrets w legacy config (env f) (dc f)).
Proof.
  unfold emission. rewrite print_header_run. intros Hr.
  apply bind_returned_inv in Hr as ([] & _ & Hr).
  apply bind_returned_inv in Hr as ([] & Hg & Hr).
  apply bind_returned_inv in Hr as ([] & He & Hd).
  destruct (print_globals_run w config) as [_ Hg']. rewrite Hg' in Hg.
  destruct (print_environment_run w config (env f)) as [_ He']. cbv zeta in He'.
  rewrite He' in He.
  unfold visited_secrets. repeat (apply Forall_app; split).
  - by apply for_range_returned_fetches.
  - by apply for_range_returned_fetches.
  - destruct legacy; [constructor|].
    destruct (print_datacenter_V2 w config (env f) (dc f)) as [_ Hd']. cbv zeta in Hd'.
    rewrite Hd' in Hd. by apply for_range_returned_fetches.
Qed.

(** X5: a run on a loaded document ends with code 0 exactly when every
    secret of the buckets it visits has a record in the store, and with
    code 6 otherwise. *)
Theorem X5_success_iff_secrets_fetched (w : World) (f : Flags) (yamlFile : string)
    (legacy : bool) (config : Config) (configV1 : ConfigV1) :
  env f <> "" ->
  ReadFile w (filepath_Abs w (varsFile f)) = Some yamlFile ->
  (load w yamlFile).2 = inr (legacy, config, configV1) ->
  ((main w f).2 = 0 <->
   Forall (fetches w) (visited_secrets w legacy config (env f) (dc f))) /\
  ((main w f).2 = 0 \/ (main w f).2 = 6).
Proof.
  intros Henv Hfile Hload.
  destruct (Action_loaded w f yamlFile legacy config configV1 Henv Hfile Hload) as [_ Hr].
  pose proof (exits_within_emission w f legacy config) as Hx.
  rewrite main_exit_code, Hr.
  destruct ((emission w f legacy config).2) as [e|[]] eqn:He.
  - destruct (Hx e He) as (msg & _ & ->). cbn. split; [|by right].
    split; [done|]. intros Hall.
    destruct (emission_all_fetched w f legacy config Hall) as [Hret _]. congruence.
  - cbn. split; [|by left]. split; [|done]. intros _.
    by apply emission_returned_fetches.
Qed.

Lemma X5_witness :
  let f := mkFlags "dev" "" "variables.yml" false in
  let config := (Unmarshal_Config sample_partial variables_two_secrets).1 in
  (env f <> "" /\
   ReadFile sample_partial (filepath_Abs sample_partial (varsFile f)) =
     Some variables_two_secrets /\
   (load sample_partial variables_two_secrets).2 = inr (false, config, zeroConfigV1)) /\
  (main sample_partial f).2 = 6.
Proof.
  intros f config.
  assert (H1 : env f <> "") by done.
  assert (H2 : ReadFile sample_partial (filepath_Abs sample_partial (varsFile f)) =
               Some variables_two_secrets) by (vm_compute; reflexivity).
  assert (H3 : (load sample_partial variables_two_secrets).2 =
               inr (false, config, zeroConfigV1)) by (vm_compute; reflexivity).
  split; [done|].
  destruct (X5_success_iff_secrets_fetched sample_partial f variables_two_secrets false config
              zeroConfigV1 H1 H2 H3) as [_ [H0|H6]]; [|exact H6].
  vm_compute in H0. discriminate H0.
Defined.

Lemma print_globals_trace w config :
  (print_globals w config).1 =
    EvStdout ("# Global Vars:" +:+ newline) ::
    map (fun kv => EvStdout (export_var w kv.1 kv.2))
        (range_order w GlobalVars (Vars config)) ++
    EvStdout ("# Global Secrets:" +:+ newline) ::
    (for_range (range_order w GlobalSecrets (Secrets_ config)) (print_secret w)).1.
Proof. unfold print_globals, Println. by rewrite for_range_print_var. Qed.

Lemma emission_starts w f legacy config :
  exists rest,
    (emission w f legacy config).1 =
      map EvStdout (header_lines (env f) (dc f)) ++
      EvStdout ("# Global Vars:" +:+ newline) ::
      map (fun kv => EvStdout (export_var w kv.1 kv.2))
          (range_order w GlobalVars (Vars config)) ++
      EvStdout ("# Global Secrets:" +:+ newline) :: rest.
Proof.
  unfold emission. rewrite print_header_run.
  destruct (bind_trace_prefix (print_globals w config)
              (fun _ => print_environment w config (env f) ;;
                        print_datacenter w legacy config (env f) (dc f))) as [t Ht].
  rewrite (bind_inr (map EvStdout (header_lines (env f) (dc f)), inr tt) _ tt eq_refl).
  cbn [fst snd]. rewrite Ht, print_globals_trace.
  eexists. cbn [app]. rewrite <- app_assoc. cbn [app]. reflexivity.
Qed.

(** A part of the trace without a fetch lies before every fetch. *)
Lemma quiet_prefix (quiet rest pre post : list Event) path err :
  fetched_paths quiet = [] ->
  quiet ++ rest = pre ++ EvGetVaultSecret path err :: post ->
  exists pre', pre = quiet ++ pre'.
Proof.
  revert pre. induction quiet as [|a quiet IH]; intros pre Hq Heq; [by exists pre|].
  destruct pre as [|b pre]; cbn in Heq.
  - inversion Heq; subst. discriminate Hq.
  - inversion Heq; subst. destruct (IH pre) as [pre' ->]; [|done|by exists pre'].
    change (b :: quiet) with ([b] ++ quiet) in Hq. rewrite fetched_paths_app in Hq.
    by apply app_eq_nil in Hq as [_ Hq].
Qed.

(** X6: once the document is loaded, the header, the banner of the global
    variables, every global variable and the banner of the global secrets
    are printed before the first secret is fetched: they are on standard
    output whatever the store answers. *)
Theorem X6_global_vars_always_printed (w : World) (f : Flags) (yamlFile : string)
    (legacy : bool) (config : Config) (configV1 : ConfigV1) :
  env f <> "" ->
  ReadFile w (filepath_Abs w (varsFile f)) = Some yamlFile ->
  (load w yamlFile).2 = inr (legacy, config, configV1) ->
  (header_lines (env f) (dc f) ++ ["# Global Vars:" +:+ newline] ++
   var_lines w GlobalVars (Vars config) ++ ["# Global Secrets:" +:+ newline])
    `prefix_of` stdout (Action w f).1 /\
  (forall pre path err post,
     (Action w f).1 = pre ++ EvGetVaultSecret path err :: post ->
     (header_lines (env f) (dc f) ++ ["# Global Vars:" +:+ newline] ++
      var_lines w GlobalVars (Vars config) ++ ["# Global Secrets:" +:+ newline])
       `prefix_of` stdout pre).
Proof.
  intros Henv Hfile Hload.
  destruct (emission_starts w f legacy config) as (rest & Hstart).
  pose proof (Action_loaded_trace w f yamlFile legacy config configV1 Henv Hfile Hload) as Heq.
  set (lines := header_lines (env f) (dc f) ++ ["# Global Vars:" +:+ newline] ++
                var_lines w GlobalVars (Vars config) ++ ["# Global Secrets:" +:+ newline]).
  set (quiet := (enableMlock w (mlockBool f)).1 ++
                EvReadFile (filepath_Abs w (varsFile f)) :: (load w yamlFile).1 ++
                map EvStdout lines).
  assert (Htrace : (Action w f).1 = quiet ++ rest).
  { rewrite Heq. cbn [fst]. rewrite Hstart. subst quiet lines.
    rewrite !map_app. cbn [map app]. unfold var_lines. rewrite map_map.
    repeat first [rewrite <- app_assoc | rewrite <- app_comm_cons]. done. }
  assert (Hquiet : fetched_paths quiet = []).
  { subst quiet. rewrite fetched_paths_app, enableMlock_fetches_nothing.
    change (EvReadFile ?p :: ?t) with ([EvReadFile p] ++ t).
    by rewrite !fetched_paths_app, load_fetches_nothing, fetched_paths_stdout. }
  assert (Hout : stdout quiet = lines).
  { subst quiet. destruct (enableMlock_run w (mlockBool f)) as [_ Hm].
    rewrite stdout_app, Hm, stdout_cons, stdout_app, (load_returned_stdout _ _ _ Hload).
    by rewrite stdout_map_EvStdout. }
  split.
  - rewrite Htrace, stdout_app, Hout. by apply prefix_app_r.
  - intros pre path err post Hsplit. rewrite Htrace in Hsplit.
    destruct (quiet_prefix quiet rest pre post path err Hquiet Hsplit) as [pre' ->].
    rewrite stdout_app, Hout. by apply prefix_app_r.
Qed.

Lemma X6_witness :
  let f := mkFlags "dev" "" "variables.yml" false in
  let config := (Unmarshal_Config sample_missing variables_missing_secret).1 in
  (env f <> "" /\
   ReadFile sample_missing (filepath_Abs sample_missing (varsFile f)) =
     Some variables_missing_secret /\
   (load sample_missing variables_missing_secret).2 = inr (false, config, zeroConfigV1)) /\
  ["# Setting Variables for:" +:+ newline; "# Environment: dev" +:+ newline;
   "# Global Vars:" +:+ newline; "export FOO=" +:+ dquote +:+ "bar" +:+ dquote +:+ newline;
   "# Global Secrets:" +:+ newline] `prefix_of` stdout (Action sample_missing f).1 /\
  (main sample_missing f).2 = 6.
Proof.
  intros f config.
  assert (H1 : env f <> "") by done.
  assert (H2 : ReadFile sample_missing (filepath_Abs sample_missing (varsFile f)) =
               Some variables_missing_secret) by (vm_compute; reflexivity).
  assert (H3 : (load sample_missing variables_missing_secret).2 =
               inr (false, config, zeroConfigV1)) by (vm_compute; reflexivity).
  split; [done|].
  destruct (X6_global_vars_always_printed sample_missing f variables_missing_secret false
              config zeroConfigV1 H1 H2 H3) as [Hpre _].
  split; [|vm_compute; reflexivity].
  assert (Hlines :
    header_lines (env f) (dc f) ++ ["# Global Vars:" +:+ newline] ++
    var_lines sample_missing GlobalVars (Vars config) ++ ["# Global Secrets:" +:+ newline] =
    ["# Setting Variables for:" +:+ newline; "# Environment: dev" +:+ newline;
     "# Global Vars:" +:+ newline; "export FOO=" +:+ dquote +:+ "bar" +:+ dquote +:+ newline;
     "# Global Secrets:" +:+ newline]) by (vm_compute; reflexivity).
  rewrite <- Hlines. exact Hpre.
Defined.

(** ** Order of the layers *)

Lemma printed_before_intro (x y : string) (out p l1 m l2 s : list string) :
  out = p ++ l1 ++ m ++ l2 ++ s -> x ∈ l1 -> y ∈ l2 -> printed_before x y out.
Proof.
  intros -> Hx Hy. apply list_elem_of_split in Hx as (a & b & ->).
  apply list_elem_of_split in Hy as (c & d & ->).
  exists (p ++ a), (b ++ m ++ c), (d ++ s).
  repeat first [rewrite <- app_assoc | rewrite <- app_comm_cons]. done.
Qed.

Lemma export_var_in_lines w l (m : gmap string string) k v :
  range_ok w -> m !! k = Some v -> export_var w k v ∈ var_lines w l m.
Proof.
  intros Hok Hk. unfold var_lines.
  apply (list_elem_of_fmap_2 (fun kv => export_var w kv.1 kv.2) _ (k, v)).
  rewrite (Hok l m). by apply elem_of_map_to_list.
Qed.

(** X7: the layers are printed in the order of their precedence.  When
    the secrets of the global and environment buckets are fetched, the
    export of a global variable comes before the export of an environment
    variable, and, in the current schema, the export of an environment
    variable comes before the export of a datacenter variable; so for a
    name bound in two layers the more specific binding is the later
    line. *)
Theorem X7_layers_in_order_of_precedence (w : World) (f : Flags) (yamlFile : string)
    (legacy : bool) (config : Config) (configV1 : ConfigV1) :
  range_ok w ->
  env f <> "" ->
  ReadFile w (filepath_Abs w (varsFile f)) = Some yamlFile ->
  (load w yamlFile).2 = inr (legacy, config, configV1) ->
  resolves w (Secrets_ config) ->
  resolves w (env_Secrets (index zeroEnvironment (Environments config) (env f))) ->
  let E := index zeroEnvironment (Environments config) (env f) in
  let D := index zeroDc (env_Dcs E) (dc f) in
  (forall k v k' v',
     Vars config !! k = Some v -> env_Vars E !! k' = Some v' ->
     printed_before (export_var w k v) (export_var w k' v') (stdout (Action w f).1)) /\
  (legacy = false ->
   forall k v k' v',
     env_Vars E !! k = Some v -> dc_Vars D !! k' = Some v' ->
     printed_before (export_var w k v) (export_var w k' v') (stdout (Action w f).1)).
Proof.
  intros Hok Henv Hfile Hload Hg He E D.
  destruct (Action_loaded w f yamlFile legacy config configV1 Henv Hfile Hload) as [Ho _].
  destruct (emission_run w f legacy config) as [Heo _];
    [by apply resolves_range | by apply resolves_range |].
  rewrite Ho, Heo. split.
  - intros k v k' v' Hk Hk'.
    apply (printed_before_intro _ _ _
             (header_lines (env f) (dc f) ++ ["# Global Vars:" +:+ newline])
             (var_lines w GlobalVars (Vars config))
             (["# Global Secrets:" +:+ newline] ++
              secret_lines w GlobalSecrets (Secrets_ config) ++
              ["# Environment (" +:+ env f +:+ ") Vars:" +:+ newline])
             (var_lines w EnvironmentVars (env_Vars E))
             (["# Environment (" +:+ env f +:+ ") Secrets:" +:+ newline] ++
              secret_lines w EnvironmentSecrets (env_Secrets E) ++
              stdout (print_datacenter w legacy config (env f) (dc f)).1));
      [|by apply export_var_in_lines|by apply export_var_in_lines].
    unfold global_lines, environment_lines. fold E.
    repeat first [rewrite <- app_assoc | rewrite <- app_comm_cons]. done.
  - intros -> k v k' v' Hk Hk'.
    destruct (print_datacenter_V2 w config (env f) (dc f)) as [Hd _]. cbv zeta in Hd.
    rewrite Hd. fold E D.
    apply (printed_before_intro _ _ _
             (header_lines (env f) (dc f) ++ global_lines w config ++
              ["# Environment (" +:+ env f +:+ ") Vars:" +:+ newline])
             (var_lines w EnvironmentVars (env_Vars E))
             (["# Environment (" +:+ env f +:+ ") Secrets:" +:+ newline] ++
              secret_lines w EnvironmentSecrets (env_Secrets E) ++
              ["# Datacenter (" +:+ env f +:+ ") Specific Vars:" +:+ newline])
             (var_lines w DatacenterVars (dc_Vars D))
             (["# Datacenter (" +:+ env f +:+ ") Specific Secrets:" +:+ newline] ++
              stdout (for_range (range_order w DatacenterSecrets (dc_Secrets D))
                        (print_secret w)).1));
      [|by apply export_var_in_lines|by apply export_var_in_lines].
    unfold environment_lines. fold E.
    repeat first [rewrite <- app_assoc | rewrite <- app_comm_cons]. done.
Qed.

Lemma X7_witness :
  let f := mkFlags "dev" "us_east" "variables.yml" false in
  let config := (Unmarshal_Config sample_v2 variables_v2).1 in
  (range_ok sample_v2 /\ env f <> "" /\
   ReadFile sample_v2 (filepath_Abs sample_v2 (varsFile f)) = Some variables_v2 /\
   (load sample_v2 variables_v2).2 = inr (false, config, zeroConfigV1) /\
   resolves sample_v2 (Secrets_ config) /\
   resolves sample_v2 (env_Secrets (index zeroEnvironment (Environments config) (env f)))) /\
  printed_before (export_var sample_v2 "FOO" "bar") (export_var sample_v2 "FOO" "baz")
    (stdout (Action sample_v2 f).1).
Proof.
  intros f config.
  assert (H1 : range_ok sample_v2) by apply range_ok_sample.
  assert (H2 : env f <> "") by done.
  assert (H3 : ReadFile sample_v2 (filepath_Abs sample_v2 (varsFile f)) = Some variables_v2)
    by (vm_compute; reflexivity).
  assert (H4 : (load sample_v2 variables_v2).2 = inr (false, config, zeroConfigV1))
    by (vm_compute; reflexivity).
  assert (H5 : resolves sample_v2 (Secrets_ config))
    by (apply resolves_check; vm_compute; reflexivity).
  assert (H6 : resolves sample_v2
                 (env_Secrets (index zeroEnvironment (Environments config) (env f))))
    by (apply resolves_check; vm_compute; reflexivity).
  split; [done|].
  destruct (X7_layers_in_order_of_precedence sample_v2 f variables_v2 false config zeroConfigV1
              H1 H2 H3 H4 H5 H6) as [Hge _].
  apply Hge; vm_compute; reflexivity.
Defined.

(** ** The skeleton of the output *)

Lemma filter_banner_var_lines w l m : List.filter is_banner (var_lines w l m) = [].
Proof. apply filter_not_banner, var_lines_not_banner. Qed.

Lemma filter_banner_secret_lines w l m : List.filter is_banner (secret_lines w l m) = [].
Proof.
  apply filter_not_banner, Forall_forall. intros s Hs.
  apply list_elem_of_In, in_map_iff in Hs as (kv & <- & _). apply is_banner_secret_line.
Qed.

Lemma filter_banner_header e d : List.filter is_banner (header_lines e d) = header_lines e d.
Proof. unfold header_lines. by case_decide. Qed.

(** X8: the banner lines of a run that ends with code 0 are fixed by the
    environment name, the datacenter name and the schema alone: the header
    (with its datacenter line only for a non-empty name), the four banners
    of the global and environment buckets, and then two datacenter banners
    in the current schema, one in legacy mode with a datacenter name, none
    in legacy mode without. *)
Theorem X8_banners_of_a_successful_run (w : World) (f : Flags) (yamlFile : string)
    (legacy : bool) (config : Config) (configV1 : ConfigV1) :
  env f <> "" ->
  ReadFile w (filepath_Abs w (varsFile f)) = Some yamlFile ->
  (load w yamlFile).2 = inr (legacy, config, configV1) ->
  (main w f).2 = 0 ->
  List.filter is_banner (stdout (Action w f).1) =
    header_lines (env f) (dc f) ++
    ["# Global Vars:" +:+ newline; "# Global Secrets:" +:+ newline;
     "# Environment (" +:+ env f +:+ ") Vars:" +:+ newline;
     "# Environment (" +:+ env f +:+ ") Secrets:" +:+ newline] ++
    datacenter_banners legacy (env f) (dc f).
Proof.
  intros Henv Hfile Hload Hexit.
  destruct (Action_loaded w f yamlFile legacy config configV1 Henv Hfile Hload) as [Ho Hr].
  assert (Hall : Forall (fetches w) (visited_secrets w legacy config (env f) (dc f))).
  { apply emission_returned_fetches. rewrite main_exit_code, Hr in Hexit.
    destruct ((emission w f legacy config).2) as [e|[]] eqn:He; [|done].
    destruct (exits_within_emission w f legacy config e He) as (msg & _ & ->). done. }
  destruct (emission_all_fetched w f legacy config Hall) as [_ Heo].
  rewrite Ho, Heo.
  unfold global_lines, environment_lines, datacenter_lines, datacenter_banners.
  rewrite !List.filter_app, filter_banner_header.
  destruct legacy; [case_decide|];
    rewrite ?List.filter_app, ?filter_banner_var_lines, ?filter_banner_secret_lines; done.
Qed.

Lemma X8_witness :
  let f := mkFlags "dev" "us_east" "variables.yml" false in
  let config := (Unmarshal_Config sample_files variables_v1).1 in
  let configV1 := (Unmarshal_ConfigV1 sample_files variables_v1).1 in
  (env f <> "" /\
   ReadFile sample_files (filepath_Abs sample_files (varsFile f)) = Some variables_v1 /\
   (load sample_files variables_v1).2 = inr (true, config, configV1) /\
   (main sample_files f).2 = 0) /\
  List.filter is_banner (stdout (Action sample_files f).1) =
    ["# Setting Variables for:" +:+ newline; "# Environment: dev" +:+ newline;
     "# Datacenter: us_east" +:+ newline;
     "# Global Vars:" +:+ newline; "# Global Secrets:" +:+ newline;
     "# Environment (dev) Vars:" +:+ newline; "# Environment (dev) Secrets:" +:+ newline;
     "# Datacenter (us_east) Specific Vars:" +:+ newline].
Proof.
  intros f config configV1.
  assert (H1 : env f <> "") by done.
  assert (H2 : ReadFile sample_files (filepath_Abs sample_files (varsFile f)) =
               Some variables_v1) by (vm_compute; reflexivity).
  assert (H3 : (load sample_files variables_v1).2 = inr (true, config, configV1))
    by (vm_compute; reflexivity).
  assert (H4 : (main sample_files f).2 = 0) by (vm_compute; reflexivity).
  split; [done|].
  exact (X8_banners_of_a_successful_run sample_files f variables_v1 true config configV1
           H1 H2 H3 H4).
Defined.

(** ** Every line is a comment or an export *)

Lemma stdout_Forall (t : list Event) :
  Forall writes_comment_or_export t -> Forall comment_or_export (stdout t).
Proof.
  induction 1 as [|e t He Ht IH]; [constructor|].
  rewrite stdout_cons. apply Forall_app. split; [|done].
  destruct e; try constructor; [exact He | constructor].
Qed.

Lemma comment_line (rest : string) : comment_or_export ("# " +:+ rest).
Proof. left. by exists rest. Qed.

Lemma export_line (rest : string) : comment_or_export ("export " +:+ rest).
Proof. right. by exists rest. Qed.

Lemma writes_print_secret w k path :
  Forall writes_comment_or_export (print_secret w k path).1.
Proof.
  unfold print_secret. destruct (GetVaultSecret w path) as [err|secret]; cbn.
  - apply Forall_cons_2; [exact I | constructor].
  - apply Forall_cons_2; [exact I|].
    apply Forall_cons_2; [|constructor].
    unfold export_secret. apply export_line.
Qed.

Lemma writes_print_var w k v : Forall writes_comment_or_export (print_var w k v).1.
Proof.
  cbn. apply Forall_cons_2; [|constructor].
  unfold export_var. apply export_line.
Qed.

Lemma writes_emit_comment (rest : string) :
  Forall writes_comment_or_export (emit (EvStdout ("# " +:+ rest))).1.
Proof. cbn. apply Forall_cons_2; [apply comment_line | constructor]. Qed.

Lemma writes_emission w f legacy config :
  Forall writes_comment_or_export (emission w f legacy config).1.
Proof.
  unfold emission, print_header, print_globals, print_environment, print_datacenter,
    Println, Printf.
  repeat first
    [ apply Forall_nil_2
    | apply writes_emit_comment
    | apply (Forall_trace_for_range writes_comment_or_export); intros;
      first [apply writes_print_var | apply writes_print_secret]
    | apply (Forall_trace_bind writes_comment_or_export); [|intros ?]
    | case_decide
    | destruct legacy ].
Qed.

(** X10: unless the run ends with code 5, every piece of text it writes
    to standard output starts with a hash sign and a space or with the
    word export and a space: error messages never reach standard output,
    and with code 5 the only output is the error text of the decoder. *)
Theorem X10_output_is_comments_and_exports (w : World) (f : Flags) :
  (main w f).2 <> 5 ->
  Forall comment_or_export (stdout (main w f).1).
Proof.
  rewrite stdout_main, main_exit_code. unfold Action.
  destruct (enableMlock_run w (mlockBool f)) as [Hm Hmo].
  rewrite (bind_inr _ _ tt Hm). cbn [fst snd].
  case_decide.
  { intros _. cbn. by rewrite app_nil_r, Hmo. }
  cbv zeta. rewrite bind_emit. cbn [fst snd].
  destruct (ReadFile w _) as [yamlFile|].
  2: { intros _. cbn. rewrite stdout_app, Hmo. constructor. }
  destruct ((load w yamlFile).2) as [e|[[legacy config] configV1]] eqn:Hload.
  - rewrite (bind_inl _ _ _ Hload). cbn [fst snd]. intros Hcode. exfalso. apply Hcode.
    revert Hload. unfold load.
    destruct (Unmarshal_Config w yamlFile) as [config [e0|]]; [|done].
    destruct (Unmarshal_ConfigV1 w yamlFile) as [configV1 [e1|]]; [|done].
    by intros [= <-].
  - rewrite (bind_inr _ _ _ Hload). cbn [fst snd]. intros _.
    rewrite stdout_app, Hmo, stdout_cons, stdout_app, (load_returned_stdout _ _ _ Hload).
    cbn [app]. apply stdout_Forall, writes_emission.
Qed.

Lemma X10_witness :
  let f := mkFlags "dev" "us_east" "variables.yml" false in
  (main sample_missing f).2 <> 5 /\
  Forall comment_or_export (stdout (main sample_missing f).1).
Proof.
  intros f.
  assert (H1 : (main sample_missing f).2 <> 5) by (vm_compute; discriminate).
  split; [exact H1|]. exact (X10_output_is_comments_and_exports sample_missing f H1).
Defined.

(** ** A quoted value stays on its line *)

Lemma all_graphic_app (a b : string) :
  all_graphic (a +:+ b) = all_graphic a && all_graphic b.
Proof.
  induction a as [|c a IH]; [done|].
  change (graphic c && all_graphic (a +:+ b) = graphic c && all_graphic a && all_graphic b).
  by rewrite IH, andb_assoc.
Qed.

(** A check over an initial segment of the naturals, lifted to [Z]. *)
Lemma below_check (P : Z -> bool) (n : nat) :
  forallb P (List.map Z.of_nat (seq 0 n)) = true ->
  forall x, 0 <= x < Z.of_nat n -> P x = true.
Proof.
  intros Hall x Hx. rewrite forallb_forall in Hall. apply Hall.
  apply in_map_iff. exists (Z.to_nat x). split; [lia|].
  apply in_seq. lia.
Qed.

Lemma graphic_lowerhex (x : Z) : 0 <= x < 16 -> all_graphic (lowerhex x) = true.
Proof. apply (below_check (fun x => all_graphic (lowerhex x)) 16). by vm_compute. Qed.

Lemma graphic_lead (base x : Z) :
  base = 192 \/ base = 224 \/ base = 240 \/ base = 128 ->
  0 <= x < 64 -> all_graphic (str1 (Z.lor base x)) = true.
Proof.
  intros Hb. revert x.
  destruct Hb as [->|[->|[->| ->]]];
    apply (below_check (fun x => all_graphic (str1 (Z.lor _ x))) 64); by vm_compute.
Qed.

Lemma graphic_ascii (r : Z) : 32 <= r <= 126 -> all_graphic (str1 r) = true.
Proof.
  intros Hr.
  assert ((r <? 32) || all_graphic (str1 r) = true) as H.
  { apply (below_check (fun r => (r <? 32) || all_graphic (str1 r)) 127);
      [by vm_compute | lia]. }
  apply orb_true_iff in H as [H|H]; [lia | done].
Qed.

Lemma land_below (r : Z) (n : Z) :
  n = 63 \/ n = 15 -> 0 <= Z.land r n < 64.
Proof.
  intros [->| ->].
  - change 63 with (Z.ones 6). rewrite Z.land_ones by lia.
    pose proof (Z.mod_pos_bound r (2 ^ 6)). lia.
  - change 15 with (Z.ones 4). rewrite Z.land_ones by lia.
    pose proof (Z.mod_pos_bound r (2 ^ 4)). lia.
Qed.

Lemma land_15 (r : Z) : 0 <= Z.land r 15 < 16.
Proof.
  change 15 with (Z.ones 4). rewrite Z.land_ones by lia.
  pose proof (Z.mod_pos_bound r (2 ^ 4)). lia.
Qed.

Lemma shiftr_below (r k hi : Z) :
  0 <= k -> 0 <= r < hi * 2 ^ k -> 0 <= Z.shiftr r k < hi.
Proof.
  intros Hk Hr. rewrite Z.shiftr_div_pow2 by done.
  assert (0 < 2 ^ k) by (apply Z.pow_pos_nonneg; lia).
  split; [apply Z.div_pos; lia | apply Z.div_lt_upper_bound; lia].
Qed.

Lemma graphic_hexdigits (n : nat) (r : Z) : all_graphic (hexdigits n r) = true.
Proof.
  induction n as [|n IH]; [done|].
  cbn [hexdigits]. rewrite all_graphic_app, IH, andb_true_r.
  apply graphic_lowerhex, land_15.
Qed.

Lemma graphic_AppendRune (r : Z) :
  (r <= 127 -> 32 <= r <= 126) -> all_graphic (AppendRune r) = true.
Proof.
  intros Hlow. unfold AppendRune.
  destruct (Z.leb_spec r 127); [by apply graphic_ascii, Hlow|].
  destruct (Z.leb_spec r 2047).
  { rewrite all_graphic_app, !graphic_lead; auto using land_below.
    pose proof (shiftr_below r 6 32). lia. }
  destruct (ValidRune r) eqn:Hvalid; [|by vm_compute].
  cbn [negb].
  assert (r <= 1114111) as Hmax.
  { unfold ValidRune in Hvalid. lia. }
  destruct (Z.leb_spec r 65535).
  - rewrite !all_graphic_app, !graphic_lead; auto using land_below.
    pose proof (shiftr_below r 12 16). lia.
  - rewrite !all_graphic_app, !graphic_lead; auto using land_below.
    pose proof (shiftr_below r 18 8). lia.
Qed.

Lemma graphic_appendEscapedRune (table : Z -> bool) (r : Z) :
  all_graphic (appendEscapedRune table r) = true.
Proof.
  unfold appendEscapedRune.
  destruct (Z.eqb_spec r 34) as [->|]; [by vm_compute|].
  destruct (Z.eqb_spec r 92) as [->|]; [by vm_compute|].
  cbn [orb].
  destruct (IsPrint table r) eqn:Hprint.
  { apply graphic_AppendRune. intros Hr. revert Hprint. unfold IsPrint, in_range.
    destruct (Z.leb_spec r 255); [|lia].
    destruct (Z.leb_spec 32 r), (Z.leb_spec r 126); cbn; try lia;
      destruct (Z.leb_spec 161 r); cbn; try lia; try discriminate;
      destruct (Z.leb_spec r 255); cbn; try lia; discriminate. }
  repeat match goal with
  | |- context [if ?b then _ else _] => destruct b; [by rewrite ?all_graphic_app, ?graphic_hexdigits|]
  end.
  by rewrite ?all_graphic_app, ?graphic_hexdigits.
Qed.

Lemma graphic_appendQuoted (table : Z -> bool) (s : string) (skip : nat) :
  all_graphic (appendQuoted table skip s) = true.
Proof.
  revert skip. induction s as [|c rest IH]; intros skip; [done|].
  cbn [appendQuoted]. destruct skip as [|k]; [|apply IH].
  destruct (DecodeRuneInString (String c rest)) as [r width].
  destruct ((width =? 1)%nat && (r =? RuneError)).
  - by rewrite !all_graphic_app, graphic_hexdigits, IH.
  - by rewrite all_graphic_app, graphic_appendEscapedRune, IH.
Qed.

Lemma graphic_Quote (table : Z -> bool) (s : string) : all_graphic (Quote table s) = true.
Proof. unfold Quote. by rewrite !all_graphic_app, graphic_appendQuoted. Qed.

(** X9: an export line is one line.  When the key holds no control
    character, the text printed for a variable is free of control
    characters up to its closing line feed, whatever bytes the value
    holds: line feeds, tabs and other control bytes of the value are
    written as escapes.  The same holds for a secret whose path holds no
    control character and whose value is a string or missing. *)
Theorem X9_export_is_a_single_line (w : World) (k : string) :
  all_graphic k = true ->
  (forall v, single_line (export_var w k v)) /\
  (forall secret path,
     all_graphic path = true ->
     (forall printed, Data_value secret <> IOther printed) ->
     single_line (export_secret w k secret path)).
Proof.
  intros Hk. split.
  - intros v. exists ("export " +:+ k +:+ "=" +:+ Quote (isPrint_table w) v). split.
    + unfold export_var. by rewrite !append_assoc.
    + by rewrite !all_graphic_app, Hk, graphic_Quote.
  - intros secret path Hpath Hvalue.
    exists ("export " +:+ k +:+ "=" +:+ fmt_q w (Data_value secret) +:+ " # " +:+ path).
    split.
    + unfold export_secret. by rewrite !append_assoc.
    + rewrite !all_graphic_app, Hk, Hpath.
      destruct (Data_value secret) as [|s|printed] eqn:Hd; cbn [fmt_q].
      * done.
      * by rewrite graphic_Quote.
      * by destruct (Hvalue printed).
Qed.

Lemma X9_witness :
  all_graphic "FOO" = true /\
  single_line (export_var sample_v2 "FOO" ("a" +:+ newline +:+ "b")) /\
  single_line
    (export_secret sample_v2 "FOO" (mkSecret {[ "value" := IString "s3cret" ]}) "/kv/foo").
Proof.
  assert (Hk : all_graphic "FOO" = true) by reflexivity.
  destruct (X9_export_is_a_single_line sample_v2 "FOO" Hk) as [Hvar Hsecret].
  split; [exact Hk|]. split; [apply Hvar|].
  apply Hsecret; [reflexivity|]. intros printed. vm_compute. discriminate.
Defined.

(** ** The exit code names the cause *)

Lemma Action_cases (w : World) (f : Flags) :
  let code := exit_code (Action w f).2 in
  let file := ReadFile w (filepath_Abs w (varsFile f)) in
  (env f = "" /\ code = 2) \/
  (env f <> "" /\ file = None /\ code = 4) \/
  (env f <> "" /\
   (exists yamlFile config e configV1 e1,
      file = Some yamlFile /\
      Unmarshal_Config w yamlFile = (config, Some e) /\
      Unmarshal_ConfigV1 w yamlFile = (configV1, Some e1)) /\
   code = 5) \/
  (env f <> "" /\
   (exists yamlFile r, file = Some yamlFile /\ (load w yamlFile).2 = inr r) /\
   (code = 0 \/ code = 6)).
Proof.
  cbv zeta.
  destruct (decide (env f = "")) as [Henv|Henv].
  { left. split; [done|]. unfold Action.
    destruct (enableMlock_run w (mlockBool f)) as [Hm _].
    rewrite (bind_inr _ _ tt Hm). by case_decide. }
  right.
  destruct (ReadFile w (filepath_Abs w (varsFile f))) as [yamlFile|] eqn:Hfile.
  2: { left. split_and!; [done..|]. unfold Action.
       destruct (enableMlock_run w (mlockBool f)) as [Hm _].
       rewrite (bind_inr _ _ tt Hm). case_decide; [done|].
       cbv zeta. by rewrite bind_emit, Hfile. }
  right.
  destruct ((load w yamlFile).2) as [err|[[legacy config] configV1]] eqn:Hload.
  - left. split; [done|].
    assert (exists config e configV1 e1,
              Unmarshal_Config w yamlFile = (config, Some e) /\
              Unmarshal_ConfigV1 w yamlFile = (configV1, Some e1) /\
              err = NewExitError "unable to unmarshal yaml" YamlErrorCode)
      as (config & e & configV1 & e1 & H2 & H1 & ->).
    { revert Hload. unfold load.
      destruct (Unmarshal_Config w yamlFile) as [config [e|]]; [|done].
      destruct (Unmarshal_ConfigV1 w yamlFile) as [configV1 [e1|]]; [|done].
      intros [= <-]. by exists config, e, configV1, e1. }
    split; [by exists yamlFile, config, e, configV1, e1|].
    unfold Action. destruct (enableMlock_run w (mlockBool f)) as [Hm _].
    rewrite (bind_inr _ _ tt Hm). case_decide; [done|].
    cbv zeta. rewrite bind_emit, Hfile. cbn [snd].
    by rewrite (bind_inl _ _ _ Hload).
  - right. split; [done|]. split; [by exists yamlFile, (legacy, config, configV1)|].
    destruct (Action_loaded w f yamlFile legacy config configV1 Henv Hfile Hload) as [_ ->].
    pose proof (exits_within_emission w f legacy config) as Hx.
    destruct ((emission w f legacy config).2) as [e|[]] eqn:He; [|by left].
    destruct (Hx e He) as (msg & _ & ->). by right.
Qed.

(** X11: the exit code tells which step ended the run.  It is 2 exactly
    when no environment was given, 4 exactly when an environment was given
    and the file could not be read, 5 exactly when the file was read and
    neither decode succeeded, and 0 or 6 exactly when the file was read
    and one of the two decodes succeeded. *)
Theorem X11_exit_code_names_the_cause (w : World) (f : Flags) :
  let file := ReadFile w (filepath_Abs w (varsFile f)) in
  ((main w f).2 = 2 <-> env f = "") /\
  ((main w f).2 = 4 <-> env f <> "" /\ file = None) /\
  ((main w f).2 = 5 <->
   env f <> "" /\
   exists yamlFile, file = Some yamlFile /\
     (Unmarshal_Config w yamlFile).2 <> None /\
     (Unmarshal_ConfigV1 w yamlFile).2 <> None) /\
  ((main w f).2 = 0 \/ (main w f).2 = 6 <->
   env f <> "" /\
   exists yamlFile, file = Some yamlFile /\
     ((Unmarshal_Config w yamlFile).2 = None \/
      (Unmarshal_ConfigV1 w yamlFile).2 = None)).
Proof.
  cbv zeta. rewrite main_exit_code.
  assert (forall yamlFile r, (load w yamlFile).2 = inr r ->
            (Unmarshal_Config w yamlFile).2 = None \/
            (Unmarshal_ConfigV1 w yamlFile).2 = None) as Hloaded.
  { intros yamlFile r. unfold load.
    destruct (Unmarshal_Config w yamlFile) as [config [e|]]; [|by left].
    destruct (Unmarshal_ConfigV1 w yamlFile) as [configV1 [e1|]]; [done|by right]. }
  destruct (Action_cases w f) as
    [[Henv Hc]|[(Henv & Hfile & Hc)|[(Henv & Hdoc & Hc)|(Henv & Hdoc & Hc)]]];
    cbv zeta in *.
  - rewrite Hc. split; [|split; [|split]]; split.
    + done.
    + done.
    + intros ?. lia.
    + by intros [? _].
    + intros ?. lia.
    + by intros [? _].
    + intros [?|?]; lia.
    + by intros [? _].
  - rewrite Hc, Hfile. split; [|split; [|split]]; split.
    + intros ?. lia.
    + done.
    + done.
    + done.
    + intros ?. lia.
    + by intros [_ (? & ? & _)].
    + intros [?|?]; lia.
    + by intros [_ (? & ? & _)].
  - destruct Hdoc as (yamlFile & config & e & configV1 & e1 & Hfile & H2 & H1).
    rewrite Hc, Hfile. split; [|split; [|split]]; split.
    + intros ?. lia.
    + done.
    + intros ?. lia.
    + by intros [_ ?].
    + intros _. split; [done|]. exists yamlFile. by rewrite H2, H1.
    + done.
    + intros [?|?]; lia.
    + intros [_ (y & [= <-] & Hnone)]. rewrite H2, H1 in Hnone. by destruct Hnone.
  - destruct Hdoc as (yamlFile & r & Hfile & Hload).
    rewrite Hfile. split; [|split; [|split]]; split.
    + intros ?. lia.
    + done.
    + intros ?. lia.
    + by intros [_ ?].
    + intros ?. lia.
    + intros (_ & y & [= <-] & Ha & Hb).
      by destruct (Hloaded _ _ Hload).
    + intros _. split; [done|]. exists yamlFile. split; [done|]. by eapply Hloaded.
    + done.
Qed.

(** ** A document without secrets *)

Lemma for_range_nil (body : string -> string -> M unit) : for_range [] body = ([], inr tt).
Proof. done. Qed.

Lemma emission_without_secrets w f legacy config newClient read :
  range_ok w ->
  Secrets_ config = ∅ ->
  env_Secrets (index zeroEnvironment (Environments config) (env f)) = ∅ ->
  legacy = true \/
  dc_Secrets (index zeroDc (env_Dcs (index zeroEnvironment (Environments config) (env f)))
                (dc f)) = ∅ ->
  emission (with_vault w newClient read) f legacy config = emission w f legacy config /\
  visited_secrets w legacy config (env f) (dc f) = [].
Proof.
  intros Hok Hg He Hd. split.
  - unfold emission, print_globals, print_environment, print_datacenter.
    change (range_order (with_vault w newClient read)) with (range_order w).
    rewrite Hg, He, !(range_empty w _ Hok), !for_range_nil.
    destruct Hd as [->|Hd]; [done|].
    destruct legacy; [done|].
    by rewrite Hd, !(range_empty w _ Hok), !for_range_nil.
  - unfold visited_secrets. cbv zeta. rewrite Hg, He, !(range_empty w _ Hok).
    destruct Hd as [->|Hd]; [done|].
    destruct legacy; [done|]. by rewrite Hd, (range_empty w _ Hok).
Qed.

(** X12: a document that declares no secret in the buckets of the run
    needs no Vault.  GetVaultSecret is not called, so that no client is
    built; the run ends with code 0 and is the same, event for event,
    whatever the client construction and the store would answer. *)
Theorem X12_no_secrets_no_vault (w : World) (f : Flags) (yamlFile : string)
    (legacy : bool) (config : Config) (configV1 : ConfigV1) :
  range_ok w ->
  env f <> "" ->
  ReadFile w (filepath_Abs w (varsFile f)) = Some yamlFile ->
  (load w yamlFile).2 = inr (legacy, config, configV1) ->
  Secrets_ config = ∅ ->
  env_Secrets (index zeroEnvironment (Environments config) (env f)) = ∅ ->
  legacy = true \/
  dc_Secrets (index zeroDc (env_Dcs (index zeroEnvironment (Environments config) (env f)))
                (dc f)) = ∅ ->
  (main w f).2 = 0 /\
  fetched_paths (Action w f).1 = [] /\
  forall newClient read, main (with_vault w newClient read) f = main w f.
Proof.
  intros Hok Henv Hfile Hload Hg He Hd.
  pose proof (Action_loaded_trace w f yamlFile legacy config configV1 Henv Hfile Hload) as Hrun.
  destruct (emission_without_secrets w f legacy config None (vault_Read w) Hok Hg He Hd)
    as [_ Hnone].
  pose proof (fetches_within_emission w f legacy config) as [Hpre _].
  rewrite Hnone in Hpre. apply prefix_nil_inv in Hpre.
  destruct (emission_all_fetched w f legacy config) as [Hret _].
  { rewrite Hnone. constructor. }
  split_and!.
  - by rewrite main_exit_code, Hrun, Hret.
  - rewrite Hrun. cbn [fst].
    rewrite fetched_paths_app, enableMlock_fetches_nothing. cbn.
    by rewrite fetched_paths_app, load_fetches_nothing, Hpre.
  - intros newClient read.
    destruct (emission_without_secrets w f legacy config newClient read Hok Hg He Hd)
      as [Hsame _].
    pose proof (Action_loaded_trace (with_vault w newClient read) f yamlFile legacy config
                  configV1 Henv Hfile Hload) as Hrun'.
    unfold main. rewrite Hrun', Hrun, Hsame. done.
Qed.

Lemma X12_witness :
  let f := mkFlags "dev" "us_east" "v2_vars.yml" false in
  let config := (Unmarshal_Config sample_files variables_v2_vars).1 in
  (range_ok sample_files /\ env f <> "" /\
   ReadFile sample_files (filepath_Abs sample_files (varsFile f)) = Some variables_v2_vars /\
   (load sample_files variables_v2_vars).2 = inr (false, config, zeroConfigV1) /\
   Secrets_ config = ∅ /\
   env_Secrets (index zeroEnvironment (Environments config) (env f)) = ∅ /\
   dc_Secrets (index zeroDc (env_Dcs (index zeroEnvironment (Environments config) (env f)))
                 (dc f)) = ∅) /\
  main (with_vault sample_files (Some "no address") (fun _ => ReadErr "sealed")) f =
    main sample_files f.
Proof.
  intros f config.
  assert (H0 : range_ok sample_files) by apply range_ok_sample.
  assert (H1 : env f <> "") by done.
  assert (H2 : ReadFile sample_files (filepath_Abs sample_files (varsFile f)) =
               Some variables_v2_vars) by (vm_compute; reflexivity).
  assert (H3 : (load sample_files variables_v2_vars).2 = inr (false, config, zeroConfigV1))
    by (vm_compute; reflexivity).
  assert (H4 : Secrets_ config = ∅) by (vm_compute; reflexivity).
  assert (H5 : env_Secrets (index zeroEnvironment (Environments config) (env f)) = ∅)
    by (vm_compute; reflexivity).
  assert (H6 : dc_Secrets (index zeroDc
                 (env_Dcs (index zeroEnvironment (Environments config) (env f))) (dc f)) = ∅)
    by (vm_compute; reflexivity).
  split; [done|].
  destruct (X12_no_secrets_no_vault sample_files f variables_v2_vars false config zeroConfigV1
              H0 H1 H2 H3 H4 H5 (or_intror H6)) as (_ & _ & Hsame).
  apply Hsame.
Defined.
